(** * Novera frontend: theme engine and authenticated API client

    A shallow embedding of two pieces of the single-page application:
    - the colour arithmetic and style-variable application of the
      customization context (hexToRgb, adjustLightness, generateColorShades,
      applyTheme, loadCustomization);
    - the response interceptor of the API service (token refresh and single
      resend on HTTP 401).

    JavaScript numbers are IEEE-754 binary64 values; they are modelled by
    Rocq's primitive floats, whose operations are the hardware ones, and
    observed through their exact decoding into sign, mantissa and exponent
    (SpecFloat). The style declarations of the document are the browser's:
    which values its style engine takes, and how it renders them, is a
    parameter of the development, bound only by what all engines do. *)

From Stdlib Require Import ZArith QArith Qround Floats Uint63 Ascii DecimalString.
From stdpp Require Import gmap strings list fin_maps.

Local Open Scope string_scope.
Local Open Scope Z_scope.

(* Decimal literals such as 0.95 are read as the nearest binary64 value,
   exactly as a JavaScript engine reads them. *)
Set Warnings "-inexact-float".

(** ** JavaScript numbers *)

Module Js.

Definition Number := float.

(** The Number with the mathematical value of [z], for |z| < 2^63 (every
    integer this program builds is far below 2^53 and hence exact). *)
Definition of_Z (z : Z) : Number :=
  let f := PrimFloat.of_uint63 (Uint63.of_Z (Z.abs z)) in
  if z <? 0 then PrimFloat.opp f else f.

(** The integer a Number denotes, when it is finite and integral. *)
Definition to_Z (x : Number) : option Z :=
  match Prim2SF x with
  | S754_zero _ => Some 0
  | S754_finite s m e =>
      let sm := if s then Z.neg m else Z.pos m in
      if 0 <=? e then Some (sm * 2 ^ e)
      else if sm mod 2 ^ (- e) =? 0 then Some (sm / 2 ^ (- e)) else None
  | _ => None
  end.

Definition is_nan (x : Number) : bool :=
  match Prim2SF x with S754_nan => true | _ => false end.

(** Math.round: the integral Number closest to [x], ties going to +∞;
    NaN, the infinities and the zeros are returned as they are, and a
    result of zero keeps the sign of [x]. *)
Definition Math_round (x : Number) : Number :=
  match Prim2SF x with
  | S754_finite s m e =>
      if 0 <=? e then x
      else
        let sm := if s then Z.neg m else Z.pos m in
        let n := (2 * sm + 2 ^ (- e)) / 2 ^ (1 - e) in
        if n =? 0 then (if s then PrimFloat.opp PrimFloat.zero else PrimFloat.zero)
        else of_Z n
  | _ => x
  end.

(** Math.min and Math.max of two arguments: NaN if either is NaN, and -0
    is smaller than +0. *)
Definition Math_min (x y : Number) : Number :=
  if is_nan x || is_nan y then PrimFloat.nan
  else if PrimFloat.ltb x y then x
  else if PrimFloat.ltb y x then y
  else match Prim2SF x with S754_zero true => x | _ => y end.

Definition Math_max (x y : Number) : Number :=
  if is_nan x || is_nan y then PrimFloat.nan
  else if PrimFloat.ltb x y then y
  else if PrimFloat.ltb y x then x
  else match Prim2SF x with S754_zero true => y | _ => x end.

Arguments Math_round x%_float.
Arguments Math_min (x y)%_float.
Arguments Math_max (x y)%_float.

End Js.

Import Js.

(** The decimal digits of an integer. *)
Definition string_of_Z (z : Z) : string :=
  DecimalString.NilZero.string_of_int (Z.to_int z).

(** Number::toString, on the values the theme engine renders: NaN, the
    infinities, and integral Numbers, which print as their decimal digits
    (below 10^21). The shortest-digits algorithm for fractional values is
    not modelled, and such a value is rendered as the empty string: every
    Number rendered below is a parseInt result or a clamped Math.round
    result, hence integral or NaN. *)
Definition Number_toString (x : Number) : string :=
  match Prim2SF x with
  | S754_nan => "NaN"
  | S754_infinity s => if s then "-Infinity" else "Infinity"
  | _ => match to_Z x with
         | Some z => string_of_Z z
         | None => ""
         end
  end.

(** ** Colour arithmetic (helper functions of the customization context) *)

Record RGB := mkRGB { r : Number; g : Number; b : Number }.

Arguments mkRGB (r g b)%_float.

(** Value of one character as a hexadecimal digit; the class [a-f\d] under
    the i flag is 0-9, a-f and A-F. *)
Definition hex_digit (c : ascii) : option Z :=
  let n := Z.of_N (N_of_ascii c) in
  if (48 <=? n) && (n <=? 57) then Some (n - 48)
  else if (97 <=? n) && (n <=? 102) then Some (n - 87)
  else if (65 <=? n) && (n <=? 70) then Some (n - 55)
  else None.

Definition is_hex (c : ascii) : bool :=
  match hex_digit c with Some _ => true | None => false end.

(** parseInt(s, 16) on a string of hexadecimal digits: the digits up to the
    first character that is not one; NaN when there is none. (Leading white
    space, signs and a 0x prefix cannot occur in a capture group of the
    pattern below.) *)
Fixpoint parse_hex_prefix (acc : option Z) (s : string) : option Z :=
  match s with
  | EmptyString => acc
  | String c rest =>
      match hex_digit c with
      | Some d => parse_hex_prefix (Some (16 * default 0 acc + d)) rest
      | None => acc
      end
  end.

Definition parseInt16 (s : string) : Number :=
  match parse_hex_prefix None s with
  | Some n => of_Z n
  | None => PrimFloat.nan
  end.

(** /^#?([a-f\d]{2})([a-f\d]{2})([a-f\d]{2})$/i.exec(hex): the three capture
    groups, or None (null) when the string does not match. *)
Definition skip_optional_hash (hex : string) : string :=
  match hex with
  | String "#"%char rest => rest
  | _ => hex
  end.

Definition hex_pattern_exec (hex : string) : option (string * string * string) :=
  match skip_optional_hash hex with
  | String c1 (String c2 (String c3 (String c4 (String c5 (String c6 EmptyString))))) =>
      if forallb is_hex [c1; c2; c3; c4; c5; c6]
      then Some (String c1 (String c2 EmptyString),
                 String c3 (String c4 EmptyString),
                 String c5 (String c6 EmptyString))
      else None
  | _ => None
  end.

Definition hexToRgb (hex : string) : option RGB :=
  match hex_pattern_exec hex with
  | Some (g1, g2, g3) =>
      Some {| r := parseInt16 g1; g := parseInt16 g2; b := parseInt16 g3 |}
  | None => None
  end.

Definition adjustLightness (rgb : RGB) (amount : Number) : RGB :=
  let adjust (value : Number) : Number :=
    if PrimFloat.ltb 0 amount then
      (* Lighten *)
      Math_round (value + (255 - value) * amount)%float
    else
      (* Darken *)
      Math_round (value * (1 + amount))%float in
  {| r := Math_max 0 (Math_min 255 (adjust (r rgb)));
     g := Math_max 0 (Math_min 255 (adjust (g rgb)));
     b := Math_max 0 (Math_min 255 (adjust (b rgb))) |}.

Arguments adjustLightness rgb amount%_float.

Record Shade := mkShade { shade_name : string; lightness : Number }.

Arguments mkShade shade_name%_string lightness%_float.

Definition shades : list Shade :=
  [ mkShade "50" 0.95; mkShade "100" 0.9; mkShade "200" 0.8;
    mkShade "300" 0.6; mkShade "400" 0.4;
    mkShade "500" 0; (* Base color *)
    mkShade "600" (-0.1); mkShade "700" (-0.2); mkShade "800" (-0.3);
    mkShade "900" (-0.4) ].

(** ** The document: style variables and the other ambient state *)

(** A nullable string used as a condition: null and the empty string are
    falsy. *)
Definition truthy (s : option string) : option string :=
  match s with
  | Some EmptyString => None
  | other => other
  end.

Definition startsWith (s prefix : string) : bool := String.prefix prefix s.

(** *** The style engine of the browser

    CSSStyleDeclaration.setProperty and the assignment to a property of a
    style object are the browser's: an empty value removes the declaration,
    a value that does not parse for the property is ignored, and a value
    that parses is kept in the engine's own rendering of it. Which values
    parse, and how they are rendered, is the engine's business and differs
    between engines; it is a parameter here. What every engine agrees on,
    and what the theme engine relies on for the values it computes itself,
    is that the value of a custom property (a name that starts with --) is
    kept as it is written when it is plain text in the sense below. *)

Definition is_digit (c : ascii) : bool :=
  let n := N_of_ascii c in (48 <=? n)%N && (n <=? 57)%N.

Definition is_letter (c : ascii) : bool :=
  let n := N_of_ascii c in
  ((65 <=? n)%N && (n <=? 90)%N) || ((97 <=? n)%N && (n <=? 122)%N).

(** The characters of numbers, units, hexadecimal colours and lists of
    them. *)
Definition plain_char (c : ascii) : bool :=
  is_digit c || is_letter c || Ascii.eqb c "." || Ascii.eqb c ","
  || Ascii.eqb c " " || Ascii.eqb c "%".

Fixpoint plain_chars (s : string) : bool :=
  match s with
  | EmptyString => true
  | String c rest => plain_char c && plain_chars rest
  end.

(** Plain characters up to a closing parenthesis that ends the text. *)
Fixpoint plain_arguments (s : string) : bool :=
  match s with
  | EmptyString => false
  | String c rest =>
      if Ascii.eqb c ")" then match rest with EmptyString => true | _ => false end
      else plain_char c && plain_arguments rest
  end.

Fixpoint ends_with_space (s : string) : bool :=
  match s with
  | EmptyString => false
  | String c EmptyString => Ascii.eqb c " "
  | String _ rest => ends_with_space rest
  end.

(** Plain text: the call rgb(...) of plain characters, or plain characters
    after a first character that is a digit or #, not ending in a space.
    Such a text is a sequence of number, dimension, percentage, hash, comma
    and white-space tokens, possibly inside one function: it is a valid
    value of a custom property, it is no CSS-wide keyword, and it has no
    white space to trim at either end. *)
Definition plain (value : string) : bool :=
  match value with
  | String "r" (String "g" (String "b" (String "(" rest))) => plain_arguments rest
  | String c rest =>
      (is_digit c || Ascii.eqb c "#") && plain_chars rest
      && negb (ends_with_space value)
  | EmptyString => false
  end.

Record StyleEngine := mkStyleEngine {
  (* The text the engine keeps for a non-empty value of a property, or None
     when the value does not parse for that property. *)
  parse_value : string → string → option string;
  parse_plain : ∀ name value : string,
    startsWith name "--" = true → plain value = true →
    parse_value name value = Some value
}.

(** *** The title of the document

    Reading document.title gives the text of the title element with ASCII
    white space stripped at both ends and collapsed to single spaces
    inside. *)

Definition is_ascii_whitespace (c : ascii) : bool :=
  let n := N_of_ascii c in
  (n =? 9)%N || (n =? 10)%N || (n =? 12)%N || (n =? 13)%N || (n =? 32)%N.

Fixpoint strip_leading (s : string) : string :=
  match s with
  | EmptyString => EmptyString
  | String c rest => if is_ascii_whitespace c then strip_leading rest else s
  end.

(** [gap] holds when white space was passed since the last character that
    was kept. *)
Fixpoint collapse (gap : bool) (s : string) : string :=
  match s with
  | EmptyString => EmptyString
  | String c rest =>
      if is_ascii_whitespace c then collapse true rest
      else if gap then String " " (String c (collapse false rest))
      else String c (collapse false rest)
  end.

Definition strip_and_collapse (s : string) : string :=
  collapse false (strip_leading s).

(** *** The document *)

(** The page is an HTML document with a head and a body. *)
Record Document := mkDocument {
  root_style : gmap string string;   (* document.documentElement.style *)
  body_fontFamily : option string;   (* document.body.style.fontFamily *)
  icon_link : option string;         (* the href given to link[rel~='icon'], if any *)
  title : string                     (* document.title *)
}.

Section Style.

Variable engine : StyleEngine.

(** root.style.setProperty(name, value) *)
Definition setProperty (name value : string) (doc : Document) : Document :=
  match value with
  | EmptyString =>
      {| root_style := delete name (root_style doc);
         body_fontFamily := body_fontFamily doc;
         icon_link := icon_link doc;
         title := title doc |}
  | _ =>
      match parse_value engine name value with
      | Some text =>
          {| root_style := <[name := text]> (root_style doc);
             body_fontFamily := body_fontFamily doc;
             icon_link := icon_link doc;
             title := title doc |}
      | None => doc
      end
  end.

(** document.body.style.fontFamily = value *)
Definition set_body_fontFamily (value : string) (doc : Document) : Document :=
  match value with
  | EmptyString =>
      {| root_style := root_style doc;
         body_fontFamily := None;
         icon_link := icon_link doc;
         title := title doc |}
  | _ =>
      match parse_value engine "font-family" value with
      | Some text =>
          {| root_style := root_style doc;
             body_fontFamily := Some text;
             icon_link := icon_link doc;
             title := title doc |}
      | None => doc
      end
  end.

(** document.title = value *)
Definition set_title (value : string) (doc : Document) : Document :=
  {| root_style := root_style doc;
     body_fontFamily := body_fontFamily doc;
     icon_link := icon_link doc;
     title := strip_and_collapse value |}.

Definition generateColorShades (baseColor name : string) (doc : Document) : Document :=
  match hexToRgb baseColor with
  | None => doc
  | Some rgb =>
      (* Generate shades from 50 to 900 *)
      foldl (fun doc shade =>
               let adjusted := adjustLightness rgb (lightness shade) in
               setProperty
                 ("--color-" ++ name ++ "-" ++ shade_name shade)
                 ("rgb(" ++ Number_toString (r adjusted) ++ ", "
                         ++ Number_toString (g adjusted) ++ ", "
                         ++ Number_toString (b adjusted) ++ ")")
                 doc)
            doc shades
  end.

Definition updateFavicon (faviconUrl : string) (doc : Document) : Document :=
  {| root_style := root_style doc;
     body_fontFamily := body_fontFamily doc;
     icon_link := Some faviconUrl;
     title := title doc |}.

End Style.

(** ** Customization records *)

Record CustomizationColors := mkColors {
  primary : string;
  secondary : string;
  accent : string;
  background : string;
  sidebar : string;
  text_primary : string;
  text_secondary : string;
  button_primary : string;
  button_text : string
}.

Record CustomizationBranding := mkBranding {
  app_name : option string;
  app_tagline : option string
}.

Record CustomizationTypography := mkTypography {
  font_family : option string;
  font_size_base : string;
  font_size_heading : string
}.

Record CustomizationLayout := mkLayout {
  border_radius : string;
  spacing_unit : string
}.

(** The four groups are declared mandatory, but the record applyTheme gets
    is the body of a response, which nothing checks against the
    declaration: applyTheme tests typography and layout for presence and
    reads colors and branding without a test. So a record that lacks a
    group is representable here (None is undefined or null). Every member
    that is present, of the record or of a group, has its declared type. *)
Record Customization := mkCustomization {
  id : string;
  organization_name : string;
  logo_url : option string;
  logo_dark_url : option string;
  favicon_url : option string;
  colors : option CustomizationColors;
  typography : option CustomizationTypography;
  layout : option CustomizationLayout;
  branding : option CustomizationBranding;
  custom_settings : gmap string string;
  is_active : bool;
  created_at : string;
  updated_at : string
}.

(** [now] is the value of new Date().toISOString() when the module loads. *)
Definition DEFAULT_CUSTOMIZATION (now : string) : Customization :=
  {| id := "default";
     organization_name := "default";
     logo_url := None;
     logo_dark_url := None;
     favicon_url := None;
     colors := Some {| primary := "#0ea5e9";
                       secondary := "#d946ef";
                       accent := "#8b5cf6";
                       background := "#ffffff";
                       sidebar := "#ffffff";
                       text_primary := "#111827";
                       text_secondary := "#6b7280";
                       button_primary := "#0ea5e9";
                       button_text := "#ffffff" |};
     typography := Some {| font_family := None;
                           font_size_base := "14px";
                           font_size_heading := "24px" |};
     layout := Some {| border_radius := "8px";
                       spacing_unit := "16px" |};
     branding := Some {| app_name := None; app_tagline := None |};
     custom_settings := ∅;
     is_active := true;
     created_at := now;
     updated_at := now |}.

(** ** Exceptions *)

(** How a statement completes: normally, or by throwing a value of [E]. *)
Inductive Completion (E A : Type) : Type :=
| Normal (a : A)
| Throw (e : E).

Arguments Normal {E A} a.
Arguments Throw {E A} e.

(** ** applyTheme *)

Section Theme.

Variable engine : StyleEngine.

(** import.meta.env.VITE_API_URL, when the build defines it. *)
Variable VITE_API_URL : option string.

(** Values that can be thrown, and the TypeError of reading a property of
    undefined or null. *)
Variable E : Type.
Variable TypeError : E.

Definition applyTheme (customization : Customization) (doc : Document)
    : Completion E unit * Document :=
  match colors customization with
  | None => (Throw TypeError, doc) (* colors.primary *)
  | Some colors =>
  (* Apply CSS variables for colors *)
  let doc := setProperty engine "--color-primary" (primary colors) doc in
  let doc := setProperty engine "--color-secondary" (secondary colors) doc in
  let doc := setProperty engine "--color-accent" (accent colors) doc in
  let doc := setProperty engine "--color-background" (background colors) doc in
  let doc := setProperty engine "--color-sidebar" (sidebar colors) doc in
  let doc := setProperty engine "--color-text-primary" (text_primary colors) doc in
  let doc := setProperty engine "--color-text-secondary" (text_secondary colors) doc in
  let doc := setProperty engine "--color-button-primary" (button_primary colors) doc in
  let doc := setProperty engine "--color-button-text" (button_text colors) doc in
  (* Apply typography settings *)
  let doc :=
    match typography customization with
    | Some typography =>
        let doc :=
          match truthy (font_family typography) with
          | Some family =>
              let doc := setProperty engine "--font-family" family doc in
              set_body_fontFamily engine family doc
          | None => doc
          end in
        let doc := setProperty engine "--font-size-base" (font_size_base typography) doc in
        setProperty engine "--font-size-heading" (font_size_heading typography) doc
    | None => doc
    end in
  (* Apply layout settings *)
  let doc :=
    match layout customization with
    | Some layout =>
        let doc := setProperty engine "--border-radius" (border_radius layout) doc in
        setProperty engine "--spacing-unit" (spacing_unit layout) doc
    | None => doc
    end in
  (* Apply primary color to Tailwind *)
  let doc :=
    match hexToRgb (primary colors) with
    | Some rgb =>
        let doc :=
          setProperty engine "--color-primary-rgb"
            (Number_toString (r rgb) ++ ", " ++ Number_toString (g rgb)
               ++ ", " ++ Number_toString (b rgb)) doc in
        (* Generate color shades for Tailwind *)
        let doc := generateColorShades engine (primary colors) "primary" doc in
        let doc := generateColorShades engine (secondary colors) "secondary" doc in
        generateColorShades engine (accent colors) "accent" doc
    | None => doc
    end in
  (* Update favicon if provided *)
  let doc :=
    match truthy (favicon_url customization) with
    | Some favicon_url =>
        let API_BASE := default "http://localhost:8000" (truthy VITE_API_URL) in
        let fullFaviconUrl :=
          if startsWith favicon_url "http" then favicon_url
          else API_BASE ++ favicon_url in
        updateFavicon fullFaviconUrl doc
    | None => doc
    end in
  (* Update document title if app name is provided *)
  match branding customization with
  | None => (Throw TypeError, doc) (* branding.app_name *)
  | Some branding =>
      match truthy (app_name branding) with
      | Some app_name => (Normal (), set_title app_name doc)
      | None => (Normal (), doc)
      end
  end
  end.

End Theme.

(** ** The customization provider: state, exceptions, loadCustomization *)

(** React state of CustomizationProvider together with the document. *)
Record Provider := mkProvider {
  customization : option Customization;
  loading : bool;
  document : Document
}.

Section Exceptions.

Variable engine : StyleEngine.
Variable VITE_API_URL : option string.
Variable now : string.

(** Values that can be thrown. *)
Variable E : Type.
Variable TypeError : E.

(** A computation over the provider state that returns or throws. *)
Definition M (A : Type) : Type := Provider → Completion E A * Provider.

#[local] Instance M_ret : MRet M := λ A a s, (Normal a, s).

#[local] Instance M_bind : MBind M := λ A B f m s,
  match m s with
  | (Normal a, s') => f a s'
  | (Throw e, s') => (Throw e, s')
  end.

(** try { body } catch (error) { handler error } finally { finalizer } *)
Definition try_catch_finally {A} (body : M A) (handler : E → M A)
    (finalizer : M unit) : M A := λ s,
  let '(c, s1) :=
    match body s with
    | (Normal a, s') => (Normal a, s')
    | (Throw e, s') => handler e s'
    end in
  match finalizer s1 with
  | (Normal _, s2) => (c, s2)
  | (Throw e, s2) => (Throw e, s2)
  end.

(** Awaiting a promise that has settled with completion [c]. *)
Definition await {A} (c : Completion E A) : M A := λ s, (c, s).

Definition setCustomization (c : Customization) : M unit := λ s,
  (Normal (), {| customization := Some c; loading := loading s;
                 document := document s |}).

Definition setLoading (l : bool) : M unit := λ s,
  (Normal (), {| customization := customization s; loading := l;
                 document := document s |}).

(** applyTheme as a step of the provider: what it had done to the document
    when it threw stays done. *)
Definition applyThemeM (c : Customization) : M unit := λ s,
  let '(completion, doc) :=
    applyTheme engine VITE_API_URL E TypeError c (document s) in
  (completion, {| customization := customization s; loading := loading s;
                  document := doc |}).

(** [getCurrentCustomization] is the settled result of
    api.getCurrentCustomization(). *)
Definition loadCustomization
    (getCurrentCustomization : Completion E Customization) : M unit :=
  try_catch_finally
    (data ← await getCurrentCustomization;
     setCustomization data;;
     applyThemeM data)
    (λ error,
     (* Use default customization on error *)
     setCustomization (DEFAULT_CUSTOMIZATION now);;
     applyThemeM (DEFAULT_CUSTOMIZATION now))
    (setLoading false).

Definition refreshCustomization
    (getCurrentCustomization : Completion E Customization) : M unit :=
  loadCustomization getCurrentCustomization.

End Exceptions.

(** ** The API service: requests, storage, location *)

(** A JSON object with string fields. *)
Abbreviation Json := (gmap string string).

(** An axios request configuration; [_retry] is the flag the response
    interceptor adds to a request it has handled. *)
Record Config := mkConfig {
  url : string;
  method : string;
  headers : gmap string string;
  data : Json;
  _retry : bool
}.

Record Response := mkResponse {
  status : Z;
  response_data : Json;
  response_config : Config
}.

(** An axios error: the configuration of the request that failed, the
    response when one was received, and the message. *)
Record AxiosError := mkAxiosError {
  error_config : Config;
  error_response : option Response;
  message : string
}.

(** What the network does with a request: it answers with a status and a
    body, or no response arrives. *)
Inductive Reply :=
| Answered (status : Z) (body : Json)
| NoAnswer (message : string).

Inductive Event :=
| ApiSent (config : Config)          (* a request dispatched by this.api *)
| RefreshPosted (config : Config)    (* the axios.post to /auth/refresh *)
| Navigated (href : string).         (* window.location.href = href *)

(** The browser around the service: durable storage, the location, and the
    requests and navigations so far, oldest first. *)
Record World := mkWorld {
  localStorage : gmap string string;
  pathname : string;
  history : list Event
}.

Definition log (e : Event) (w : World) : World :=
  {| localStorage := localStorage w; pathname := pathname w;
     history := history w ++ [e] |}.

Definition setItem (key value : string) (w : World) : World :=
  {| localStorage := <[key := value]> (localStorage w); pathname := pathname w;
     history := history w |}.

Definition removeItem (key : string) (w : World) : World :=
  {| localStorage := delete key (localStorage w); pathname := pathname w;
     history := history w |}.

Definition clear (w : World) : World :=
  {| localStorage := ∅; pathname := pathname w; history := history w |}.

(** window.location.href = href, for a path of the same origin. *)
Definition navigate (href : string) (w : World) : World :=
  {| localStorage := localStorage w; pathname := href;
     history := history w ++ [Navigated href] |}.

(** String.prototype.includes *)
Fixpoint includes (s sub : string) : bool :=
  String.prefix sub s
  || match s with
     | EmptyString => false
     | String _ rest => includes rest sub
     end.

Definition set_header (name value : string) (config : Config) : Config :=
  {| url := url config; method := method config;
     headers := <[name := value]> (headers config);
     data := data config; _retry := _retry config |}.

Definition set_retry (flag : bool) (config : Config) : Config :=
  {| url := url config; method := method config; headers := headers config;
     data := data config; _retry := flag |}.

(** The error object refers to the request configuration, so a flag set on
    the configuration shows on the error. *)
Definition with_config (config : Config) (error : AxiosError) : AxiosError :=
  {| error_config := config; error_response := error_response error;
     message := message error |}.

(** The outcome the caller of this.api observes. [Unfinished] is the
    model running out of fuel, which two units of fuel exclude. *)
Inductive Settled :=
| Fulfilled (response : Response)
| Rejected (error : AxiosError)
| Unfinished.

(** validateStatus: the statuses that fulfil the promise. *)
Definition validateStatus (status : Z) : bool :=
  (200 <=? status) && (status <? 300).

(** The error axios raises for a response with a status that does not. *)
Definition status_error (config : Config) (status : Z) (body : Json) : AxiosError :=
  {| error_config := config;
     error_response := Some {| status := status; response_data := body;
                               response_config := config |};
     message := "Request failed with status code " ++ string_of_Z status |}.

(** axios settles a dispatched request: a valid status fulfils the promise,
    any other status and a missing response reject it. *)
Definition settle (config : Config) (reply : Reply) : AxiosError + Response :=
  match reply with
  | Answered status body =>
      if validateStatus status
      then inr {| status := status; response_data := body;
                  response_config := config |}
      else inl (status_error config status body)
  | NoAnswer message =>
      inl {| error_config := config; error_response := None; message := message |}
  end.

Definition settled (result : AxiosError + Response) : Settled :=
  match result with
  | inr response => Fulfilled response
  | inl error => Rejected error
  end.

Section ApiService.

(** import.meta.env.VITE_API_URL, when the build defines it. *)
Variable VITE_API_URL : option string.

Definition API_BASE_URL : string :=
  default "http://localhost:8000" (truthy VITE_API_URL).

Definition API_VERSION : string := "/api/v1".

(** The backend, as a function of everything sent so far. *)
Variable network : list Event → Config → Reply.

(** Request interceptor: attach the stored access token. *)
Definition request_interceptor (w : World) (config : Config) : Config :=
  match truthy (localStorage w !! "access_token") with
  | Some token => set_header "Authorization" ("Bearer " ++ token) config
  | None => config
  end.

Definition refresh_request (refreshToken : string) : Config :=
  {| url := API_BASE_URL ++ API_VERSION ++ "/auth/refresh";
     method := "post";
     headers := {[ "Content-Type" := "application/json" ]};
     data := {[ "refresh_token" := refreshToken ]};
     _retry := false |}.

Definition status_is (error : AxiosError) (code : Z) : bool :=
  match error_response error with
  | Some response => status response =? code
  | None => false
  end.

(** Response interceptor, rejected case. [resend] is this.api. The
    branches for status 422 and for the message 'Network Error' only write
    to the console. *)
Definition response_rejected (resend : World → Config → World * Settled)
    (w : World) (error : AxiosError) : World * Settled :=
  let originalRequest := error_config error in
  (* Handle authentication errors *)
  if status_is error 401 && negb (_retry originalRequest) then
    let originalRequest := set_retry true originalRequest in
    let error := with_config originalRequest error in
    match truthy (localStorage w !! "refresh_token") with
    | None =>
        let w := clear w in
        let w := navigate "/login" w in
        (w, Rejected error)
    | Some refreshToken =>
        let request := refresh_request refreshToken in
        let reply := network (history w) request in
        let w := log (RefreshPosted request) w in
        match settle request reply with
        | inr response =>
            let access_token :=
              default "undefined" (response_data response !! "access_token") in
            let w := setItem "access_token" access_token w in
            (* Retry original request with new token *)
            let originalRequest :=
              set_header "Authorization" ("Bearer " ++ access_token) originalRequest in
            resend w originalRequest
        | inl refreshError =>
            (* Clear tokens and redirect to login *)
            let w := removeItem "access_token" w in
            let w := removeItem "refresh_token" w in
            (* Don't redirect if already on login page *)
            let w := if negb (includes (pathname w) "/login")
                     then navigate "/login" w else w in
            (w, Rejected refreshError)
        end
    end
  else (w, Rejected error).

(** this.api(config): request interceptor, dispatch, response
    interceptors. *)
Fixpoint api (fuel : nat) (w : World) (config : Config) : World * Settled :=
  match fuel with
  | O => (w, Unfinished)
  | S fuel =>
      let config := request_interceptor w config in
      let reply := network (history w) config in
      let w := log (ApiSent config) w in
      match settle config reply with
      | inr response => (w, Fulfilled response)
      | inl error => response_rejected (api fuel) w error
      end
  end.

(** One resend at most is nested in a request, so two units of fuel are
    all a request needs. *)
Definition request (w : World) (config : Config) : World * Settled :=
  api 2 w config.

End ApiService.

(** ** The shade formula as the specification words it

    Exact rational arithmetic; round is rounding to the nearest integer with
    ties going up. *)

Definition spec_factor (level : string) : option Q :=
  if String.eqb level "50" then Some (95 # 100)%Q
  else if String.eqb level "100" then Some (90 # 100)%Q
  else if String.eqb level "200" then Some (80 # 100)%Q
  else if String.eqb level "300" then Some (60 # 100)%Q
  else if String.eqb level "400" then Some (40 # 100)%Q
  else if String.eqb level "500" then Some 0%Q
  else if String.eqb level "600" then Some (- (10 # 100))%Q
  else if String.eqb level "700" then Some (- (20 # 100))%Q
  else if String.eqb level "800" then Some (- (30 # 100))%Q
  else if String.eqb level "900" then Some (- (40 # 100))%Q
  else None.

Definition spec_round (q : Q) : Z := Qfloor (q + (1 # 2))%Q.

Definition spec_shade_channel (channel : Z) (factor : Q) : Z :=
  match (factor ?= 0)%Q with
  | Gt => spec_round (inject_Z channel + (255 - inject_Z channel) * factor)%Q
  | Lt => spec_round (inject_Z channel * (1 + factor))%Q
  | Eq => channel
  end.

(** The inputs at which binary64 arithmetic falls just short of a tie that
    the exact product reaches: at level 800 the factor 1 + (-0.3) is the
    binary64 value just below 0.7, and for these four channels the product
    lands below n + 1/2. *)
Definition binary64_shortfall (level : string) (channel : Z) : Z :=
  if String.eqb level "800"
     && bool_decide (channel ∈ [45; 85; 165; 175])
  then 1 else 0.

(** ** Auxiliary definitions: one channel, and the check of the table *)

(** One channel of adjustLightness: the inner closure, then the clamp. *)
Definition adjust (amount value : Number) : Number :=
  if PrimFloat.ltb 0 amount then Math_round (value + (255 - value) * amount)%float
  else Math_round (value * (1 + amount))%float.

Definition clamp (x : Number) : Number := Math_max 0 (Math_min 255 x).

Definition channel_values : list Z := map Z.of_nat (seq 0 256).

(** What one table row does to one channel value, checked against the
    exact formula and the range. *)
Definition channel_ok (sh : Shade) (c : Z) : bool :=
  match spec_factor (shade_name sh), to_Z (adjust (lightness sh) (of_Z c)),
        to_Z (clamp (adjust (lightness sh) (of_Z c))) with
  | Some factor, Some raw, Some out =>
      (out =? spec_shade_channel c factor - binary64_shortfall (shade_name sh) c)
      && (raw =? out) && (0 <=? out) && (out <=? 255)
  | _, _, _ => false
  end.

(** ** Auxiliary definitions: the style variables applyTheme writes *)

(** What one call of setProperty does to its variable: [Some None] removes
    it, [Some (Some text)] sets it to text, [None] leaves it as it is. *)
Definition effect (engine : StyleEngine) (name value : string) : option (option string) :=
  match value with
  | EmptyString => Some None
  | _ => match parse_value engine name value with
         | Some text => Some (Some text)
         | None => None
         end
  end.

Definition write (engine : StyleEngine) (m : gmap string string)
    (kv : string * string) : gmap string string :=
  match effect engine kv.1 kv.2 with
  | Some (Some text) => <[kv.1 := text]> m
  | Some None => delete kv.1 m
  | None => m
  end.

(** The effect of the last call, in a sequence of calls, that does anything
    to the variable [k], if there is one. *)
Fixpoint last_effect (engine : StyleEngine) (k : string)
    (ws : list (string * string)) : option (option string) :=
  match ws with
  | [] => None
  | (k', v) :: ws' =>
      match last_effect engine k ws' with
      | Some e => Some e
      | None => if String.eqb k' k then effect engine k' v else None
      end
  end.

(** A call the engine is bound to carry out as it is written. *)
Definition plain_write (kv : string * string) : bool :=
  startsWith kv.1 "--" && plain kv.2.

(** The last value written to [k] by a sequence of writes, if any. *)
Fixpoint last_write (k : string) (ws : list (string * string)) : option string :=
  match ws with
  | [] => None
  | (k', v) :: ws' =>
      match last_write k ws' with
      | Some v' => Some v'
      | None => if String.eqb k' k then Some v else None
      end
  end.

Definition ramp_variable (name : string) (sh : Shade) : string :=
  "--color-" ++ name ++ "-" ++ shade_name sh.

Definition ramp_value (rgb : RGB) (sh : Shade) : string :=
  let adjusted := adjustLightness rgb (lightness sh) in
  "rgb(" ++ Number_toString (r adjusted) ++ ", "
         ++ Number_toString (g adjusted) ++ ", "
         ++ Number_toString (b adjusted) ++ ")".

Definition ramp_writes (baseColor name : string) : list (string * string) :=
  match hexToRgb baseColor with
  | Some rgb => map (λ sh, (ramp_variable name sh, ramp_value rgb sh)) shades
  | None => []
  end.

Definition color_writes (cs : CustomizationColors) : list (string * string) :=
  [ ("--color-primary", primary cs); ("--color-secondary", secondary cs);
    ("--color-accent", accent cs); ("--color-background", background cs);
    ("--color-sidebar", sidebar cs); ("--color-text-primary", text_primary cs);
    ("--color-text-secondary", text_secondary cs);
    ("--color-button-primary", button_primary cs);
    ("--color-button-text", button_text cs) ].

Definition typography_writes (t : option CustomizationTypography) : list (string * string) :=
  match t with
  | Some t =>
      match truthy (font_family t) with
      | Some family => [("--font-family", family)]
      | None => []
      end
      ++ [ ("--font-size-base", font_size_base t);
           ("--font-size-heading", font_size_heading t) ]
  | None => []
  end.

Definition layout_writes (l : option CustomizationLayout) : list (string * string) :=
  match l with
  | Some l => [ ("--border-radius", border_radius l);
                ("--spacing-unit", spacing_unit l) ]
  | None => []
  end.

Definition tailwind_writes (cs : CustomizationColors) : list (string * string) :=
  match hexToRgb (primary cs) with
  | Some rgb =>
      ("--color-primary-rgb",
       Number_toString (r rgb) ++ ", " ++ Number_toString (g rgb)
         ++ ", " ++ Number_toString (b rgb))
      :: ramp_writes (primary cs) "primary"
      ++ ramp_writes (secondary cs) "secondary"
      ++ ramp_writes (accent cs) "accent"
  | None => []
  end.

(** The calls of setProperty applyTheme makes, in order; none when the
    record has no colors, as applyTheme throws before the first. *)
Definition style_writes (c : Customization) : list (string * string) :=
  match colors c with
  | Some cs =>
      color_writes cs ++ typography_writes (typography c)
      ++ layout_writes (layout c) ++ tailwind_writes cs
  | None => []
  end.

Definition ramp_names : list string := ["primary"; "secondary"; "accent"].

Definition color_variables : list string :=
  [ "--color-primary"; "--color-secondary"; "--color-accent";
    "--color-background"; "--color-sidebar"; "--color-text-primary";
    "--color-text-secondary"; "--color-button-primary"; "--color-button-text" ].

Definition setting_variables : list string :=
  [ "--font-family"; "--font-size-base"; "--font-size-heading";
    "--border-radius"; "--spacing-unit"; "--color-primary-rgb" ].

Definition ramp_variables : list string :=
  map (ramp_variable "primary") shades
  ++ map (ramp_variable "secondary") shades
  ++ map (ramp_variable "accent") shades.

Definition pre_variables : list string := color_variables ++ setting_variables.

(** Every style variable the theme engine manages. *)
Definition theme_variables : list string :=
  color_variables ++ setting_variables ++ ramp_variables.
(** ** Auxiliary definitions: the stages of applyTheme *)

(** A sequence of calls of setProperty. *)
Definition set_all (engine : StyleEngine) (ws : list (string * string))
    (doc : Document) : Document :=
  foldl (λ doc kv, setProperty engine kv.1 kv.2 doc) doc ws.

Definition typography_stage (engine : StyleEngine)
    (typography : option CustomizationTypography) (doc : Document) : Document :=
  match typography with
  | Some typography =>
      let doc :=
        match truthy (font_family typography) with
        | Some family =>
            let doc := setProperty engine "--font-family" family doc in
            set_body_fontFamily engine family doc
        | None => doc
        end in
      let doc := setProperty engine "--font-size-base" (font_size_base typography) doc in
      setProperty engine "--font-size-heading" (font_size_heading typography) doc
  | None => doc
  end.

(** What a font family that is not empty does to the font of the body. *)
Definition body_font_after (engine : StyleEngine) (family : string)
    (before : option string) : option string :=
  match parse_value engine "font-family" family with
  | Some text => Some text
  | None => before
  end.

Definition tailwind_stage (engine : StyleEngine) (colors : CustomizationColors)
    (doc : Document) : Document :=
  match hexToRgb (primary colors) with
  | Some rgb =>
      let doc :=
        setProperty engine "--color-primary-rgb"
          (Number_toString (r rgb) ++ ", " ++ Number_toString (g rgb)
             ++ ", " ++ Number_toString (b rgb)) doc in
      let doc := generateColorShades engine (primary colors) "primary" doc in
      let doc := generateColorShades engine (secondary colors) "secondary" doc in
      generateColorShades engine (accent colors) "accent" doc
  | None => doc
  end.

Definition favicon_stage (VITE_API_URL : option string) (c : Customization)
    (doc : Document) : Document :=
  match truthy (favicon_url c) with
  | Some favicon_url =>
      let API_BASE := default "http://localhost:8000" (truthy VITE_API_URL) in
      let fullFaviconUrl :=
        if startsWith favicon_url "http" then favicon_url
        else API_BASE ++ favicon_url in
      updateFavicon fullFaviconUrl doc
  | None => doc
  end.

Definition title_stage {E : Type} (TypeError : E) (c : Customization)
    (doc : Document) : Completion E unit * Document :=
  match branding c with
  | None => (Throw TypeError, doc)
  | Some branding =>
      match truthy (app_name branding) with
      | Some app_name => (Normal (), set_title app_name doc)
      | None => (Normal (), doc)
      end
  end.

(** ** Scenarios: documents, records, a backend and a browser *)

(** A style engine that takes every value and keeps it as it is written. *)
Definition keeping_engine : StyleEngine :=
  {| parse_value := λ _ value, Some value;
     parse_plain := λ _ _ _ _, eq_refl |}.

Definition empty_document : Document :=
  {| root_style := ∅; body_fontFamily := None; icon_link := None; title := "" |}.

Definition initial_provider : Provider :=
  {| customization := None; loading := true; document := empty_document |}.

(** The default colours, but the accent colour is a 3-digit shorthand. *)
Definition customization_short_accent : Customization :=
  {| id := "default";
     organization_name := "default";
     logo_url := None;
     logo_dark_url := None;
     favicon_url := None;
     colors := Some {| primary := "#0ea5e9";
                       secondary := "#d946ef";
                       accent := "#fff";
                       background := "#ffffff";
                       sidebar := "#ffffff";
                       text_primary := "#111827";
                       text_secondary := "#6b7280";
                       button_primary := "#0ea5e9";
                       button_text := "#ffffff" |};
     typography := Some {| font_family := None;
                           font_size_base := "14px";
                           font_size_heading := "24px" |};
     layout := Some {| border_radius := "8px"; spacing_unit := "16px" |};
     branding := Some {| app_name := None; app_tagline := None |};
     custom_settings := ∅;
     is_active := true;
     created_at := "";
     updated_at := "" |}.

(** The default colours, but the primary colour is a colour name. *)
Definition customization_named_primary : Customization :=
  {| id := "default";
     organization_name := "default";
     logo_url := None;
     logo_dark_url := None;
     favicon_url := None;
     colors := Some {| primary := "red";
                       secondary := "#d946ef";
                       accent := "#8b5cf6";
                       background := "#ffffff";
                       sidebar := "#ffffff";
                       text_primary := "#111827";
                       text_secondary := "#6b7280";
                       button_primary := "#0ea5e9";
                       button_text := "#ffffff" |};
     typography := Some {| font_family := None;
                           font_size_base := "14px";
                           font_size_heading := "24px" |};
     layout := Some {| border_radius := "8px"; spacing_unit := "16px" |};
     branding := Some {| app_name := None; app_tagline := None |};
     custom_settings := ∅;
     is_active := true;
     created_at := "";
     updated_at := "" |}.

(** A reply that axios turns into a rejection: a status outside [200, 300),
    or no response at all. *)
Definition failed (reply : Reply) : Prop :=
  match reply with
  | Answered status _ => validateStatus status = false
  | NoAnswer _ => True
  end.

(** The refresh endpoint accepts the refresh token r1 and issues the access
    token a2; /auth/register answers 422; any other route answers 200 to a
    request bearing a2 and 401 to the rest. *)
Definition demo_network (history : list Event) (config : Config) : Reply :=
  if String.eqb (url config) "http://localhost:8000/api/v1/auth/refresh" then
    if bool_decide (data config !! "refresh_token" = Some "r1")
    then Answered 200 {[ "access_token" := "a2" ]}
    else Answered 401 ∅
  else if String.eqb (url config) "/auth/register" then Answered 422 ∅
  else if bool_decide (headers config !! "Authorization" = Some "Bearer a2")
       then Answered 200 ∅
       else Answered 401 ∅.

Definition get_documents : Config :=
  {| url := "/documents"; method := "get";
     headers := {[ "Content-Type" := "application/json" ]};
     data := ∅; _retry := false |}.

Definition post_register : Config :=
  {| url := "/auth/register"; method := "post";
     headers := {[ "Content-Type" := "application/json" ]};
     data := {[ "email" := "a@b.c" ]}; _retry := false |}.

(** An expired access token with a good refresh token. *)
Definition world_expired : World :=
  {| localStorage := {[ "access_token" := "a1"; "refresh_token" := "r1";
                        "sidebar" := "collapsed" ]};
     pathname := "/documents"; history := [] |}.

(** An expired access token and a refresh token the backend rejects. *)
Definition world_stale : World :=
  {| localStorage := {[ "access_token" := "a1"; "refresh_token" := "r0";
                        "sidebar" := "collapsed" ]};
     pathname := "/documents"; history := [] |}.

(** An access token only. *)
Definition world_access_only : World :=
  {| localStorage := {[ "access_token" := "a1"; "sidebar" := "collapsed" ]};
     pathname := "/documents"; history := [] |}.

Definition demo_api : nat → World → Config → World * Settled :=
  api None demo_network.

Definition bearer (token : string) (config : Config) : Config :=
  set_header "Authorization" ("Bearer " ++ token) config.

(** The stale session on the login page itself. *)
Definition world_stale_login : World :=
  {| localStorage := {[ "access_token" := "a1"; "refresh_token" := "r0";
                        "sidebar" := "collapsed" ]};
     pathname := "/login"; history := [] |}.

Definition refresh_rejection : AxiosError :=
  status_error (refresh_request None "r0") 401 ∅.

(** ** More of the customization context *)

(** getFullImageUrl, the helper of the provider (and of the layout and the
    pages that show a logo). *)
Definition getFullImageUrl (VITE_API_URL : option string) (path : option string) : string :=
  match truthy path with
  | None => ""
  | Some path =>
      (* If path already starts with http, return as is *)
      if startsWith path "http" then path
      else
        let API_BASE := default "http://localhost:8000" (truthy VITE_API_URL) in
        API_BASE ++ path
  end.

(** A record that supplies every part of a theme and leaves nothing to the
    document it is applied to: the four groups are present; the font family
    is not empty and the engine takes it both as the value of --font-family
    and as a font family; the three brand colours parse; every other value
    the record makes applyTheme write is empty or taken by the engine; and
    there are a favicon and an application name. *)
Definition complete (engine : StyleEngine) (c : Customization) : Prop :=
  ∃ cs t b,
    colors c = Some cs ∧ typography c = Some t ∧ branding c = Some b
    ∧ is_Some (layout c)
    ∧ (∃ family, truthy (font_family t) = Some family
                 ∧ is_Some (parse_value engine "--font-family" family)
                 ∧ is_Some (parse_value engine "font-family" family))
    ∧ is_Some (hexToRgb (primary cs))
    ∧ is_Some (hexToRgb (secondary cs))
    ∧ is_Some (hexToRgb (accent cs))
    ∧ Forall (λ kv, is_Some (effect engine kv.1 kv.2)) (style_writes c)
    ∧ is_Some (truthy (favicon_url c))
    ∧ is_Some (truthy (app_name b)).

(** Six hexadecimal digits. *)
Definition six_hex_digits (s : string) : Prop :=
  String.length s = 6%nat ∧ forallb is_hex (String.list_ascii_of_string s) = true.

(** The value of two hexadecimal digits, high digit first. *)
Definition hex_pair (c1 c2 : ascii) : option Z :=
  match hex_digit c1, hex_digit c2 with
  | Some d1, Some d2 => Some (16 * d1 + d2)
  | _, _ => None
  end.

(** The integer one channel of a row of the table comes out as. *)
Definition shade_channel (sh : Shade) (c : Z) : option Z :=
  to_Z (clamp (adjust (lightness sh) (of_Z c))).

(** The channel values with what a row makes of them. *)
Definition shade_row (sh : Shade) : list (Z * option Z) :=
  map (λ c, (c, shade_channel sh c)) channel_values.

Definition option_Z_le (x y : option Z) : bool :=
  match x, y with
  | Some x, Some y => x <=? y
  | _, _ => false
  end.

(** The text rgb(R, G, B). *)
Definition rgb_text (R G B : Z) : string :=
  "rgb(" ++ string_of_Z R ++ ", " ++ string_of_Z G ++ ", " ++ string_of_Z B ++ ")".

(** The customization of a brand in full. *)
Definition customization_acme : Customization :=
  {| id := "acme";
     organization_name := "acme";
     logo_url := Some "/static/logo.png";
     logo_dark_url := None;
     favicon_url := Some "/static/favicon.ico";
     colors := Some {| primary := "#112233";
                       secondary := "445566";
                       accent := "#AaBbCc";
                       background := "#ffffff";
                       sidebar := "#ffffff";
                       text_primary := "#111827";
                       text_secondary := "#6b7280";
                       button_primary := "#112233";
                       button_text := "#ffffff" |};
     typography := Some {| font_family := Some "Inter";
                           font_size_base := "15px";
                           font_size_heading := "26px" |};
     layout := Some {| border_radius := "4px"; spacing_unit := "12px" |};
     branding := Some {| app_name := Some "Acme"; app_tagline := None |};
     custom_settings := ∅;
     is_active := true;
     created_at := "";
     updated_at := "" |}.


(** The brand, but with the 3-digit shorthand of its accent colour. *)
Definition customization_acme_short_accent : Customization :=
  {| id := "acme";
     organization_name := "acme";
     logo_url := Some "/static/logo.png";
     logo_dark_url := None;
     favicon_url := Some "/static/favicon.ico";
     colors := Some {| primary := "#112233";
                       secondary := "445566";
                       accent := "#abc";
                       background := "#ffffff";
                       sidebar := "#ffffff";
                       text_primary := "#111827";
                       text_secondary := "#6b7280";
                       button_primary := "#112233";
                       button_text := "#ffffff" |};
     typography := Some {| font_family := Some "Inter";
                           font_size_base := "15px";
                           font_size_heading := "26px" |};
     layout := Some {| border_radius := "4px"; spacing_unit := "12px" |};
     branding := Some {| app_name := Some "Acme"; app_tagline := None |};
     custom_settings := ∅;
     is_active := true;
     created_at := "";
     updated_at := "" |}.

(** A response body that has the colours of the brand and nothing else. *)
Definition customization_colors_only : Customization :=
  {| id := "";
     organization_name := "";
     logo_url := None;
     logo_dark_url := None;
     favicon_url := None;
     colors := colors customization_acme;
     typography := None;
     layout := None;
     branding := None;
     custom_settings := ∅;
     is_active := true;
     created_at := "";
     updated_at := "" |}.

(** The default colours, but no primary colour (the empty string). *)
Definition customization_empty_primary : Customization :=
  {| id := "default";
     organization_name := "default";
     logo_url := None;
     logo_dark_url := None;
     favicon_url := None;
     colors := Some {| primary := "";
                       secondary := "#d946ef";
                       accent := "#8b5cf6";
                       background := "#ffffff";
                       sidebar := "#ffffff";
                       text_primary := "#111827";
                       text_secondary := "#6b7280";
                       button_primary := "#0ea5e9";
                       button_text := "#ffffff" |};
     typography := Some {| font_family := None;
                           font_size_base := "14px";
                           font_size_heading := "24px" |};
     layout := Some {| border_radius := "8px"; spacing_unit := "16px" |};
     branding := Some {| app_name := None; app_tagline := None |};
     custom_settings := ∅;
     is_active := true;
     created_at := "";
     updated_at := "" |}.

(** ** More of the API service: its methods, and the authentication context *)

(** What an asynchronous function throws: the axios error of a request, an
    Error made by the service with new Error(message), or the TypeError of
    reading a property of undefined or null. *)
Inductive Thrown :=
| AxiosThrown (error : AxiosError)
| ErrorThrown (message : string)
| TypeErrorThrown.

(** How the promise of an asynchronous function settles. [Unsettled] is the
    model out of fuel, which [request] excludes. *)
Inductive Promise (A : Type) : Type :=
| Resolved (a : A)
| Threw (t : Thrown)
| Unsettled.

Arguments Resolved {A} a.
Arguments Threw {A} t.
Arguments Unsettled {A}.

(** One entry of the detail of a 422 response. *)
Record ValidationItem := mkValidationItem {
  loc : option (list string);
  msg : string
}.

(** Array.prototype.join *)
Fixpoint join (sep : string) (l : list string) : string :=
  match l with
  | [] => ""
  | [x] => x
  | x :: rest => x ++ sep ++ join sep rest
  end.

(** The text of err.loc?.join('.') in a template. *)
Definition loc_text (loc : option (list string)) : string :=
  match loc with
  | Some path => join "." path
  | None => "undefined"
  end.

Module Service.

Section Methods.

Variable VITE_API_URL : option string.
Variable network : list Event → Config → Reply.

(** error.response?.data?.detail, when it is an array. *)
Variable detail : Json → option (list ValidationItem).

(** The configuration this.api.get, this.api.post and the like build, with
    the headers the instance was created with. *)
Definition call (method url : string) (data : Json) : Config :=
  {| url := url; method := method;
     headers := {[ "Content-Type" := "application/json" ]};
     data := data; _retry := false |}.

(** handleValidationError: [Some message] when it throws
    new Error(message), [None] when it returns. *)
Definition handleValidationError (error : AxiosError) : option string :=
  match error_response error with
  | Some response =>
      match detail (response_data response) with
      | Some validationErrors =>
          Some (join "; " (map (λ err, loc_text (loc err) ++ ": " ++ msg err)
                             validationErrors))
      | None => None
      end
  | None => None
  end.

(** The catch block of register and of login. *)
Definition rethrow (error : AxiosError) : Thrown :=
  if status_is error 422 then
    match handleValidationError error with
    | Some message => ErrorThrown message
    | None => AxiosThrown error
    end
  else AxiosThrown error.

(** The request of register; a full name that is not given is left out of
    the body. *)
Definition register_request (email username password : string)
    (fullName : option string) : Config :=
  let body : Json :=
    {[ "email" := email; "username" := username; "password" := password ]} in
  call "post" "/auth/register"
    match fullName with
    | Some full_name => <["full_name" := full_name]> body
    | None => body
    end.

Definition register (email username password : string) (fullName : option string)
    (w : World) : World * Promise Json :=
  match request VITE_API_URL network w
          (register_request email username password fullName) with
  | (w, Fulfilled response) => (w, Resolved (response_data response))
  | (w, Rejected error) => (w, Threw (rethrow error))
  | (w, Unfinished) => (w, Unsettled)
  end.

Definition login_request (email password : string) : Config :=
  call "post" "/auth/login" {[ "email" := email; "password" := password ]}.

Definition login (email password : string) (w : World) : World * Promise Json :=
  match request VITE_API_URL network w (login_request email password) with
  | (w, Fulfilled response) => (w, Resolved (response_data response))
  | (w, Rejected error) => (w, Threw (rethrow error))
  | (w, Unfinished) => (w, Unsettled)
  end.

Definition logout (refreshToken : string) (w : World) : World * Promise unit :=
  match request VITE_API_URL network w
          (call "post" "/auth/logout" {[ "refresh_token" := refreshToken ]}) with
  | (w, Fulfilled _) => (w, Resolved ())
  | (w, Rejected error) => (w, Threw (AxiosThrown error))
  | (w, Unfinished) => (w, Unsettled)
  end.

Definition getCurrentUser (w : World) : World * Promise Json :=
  match request VITE_API_URL network w (call "get" "/auth/me" ∅) with
  | (w, Fulfilled response) => (w, Resolved (response_data response))
  | (w, Rejected error) => (w, Threw (AxiosThrown error))
  | (w, Unfinished) => (w, Unsettled)
  end.

End Methods.

End Service.

Module AuthContext.

(** The state of AuthProvider. *)
Record State := mkState {
  user : option Json;
  loading : bool
}.

Definition setUser (u : option Json) (st : State) : State :=
  {| user := u; loading := loading st |}.

Definition setLoading (l : bool) (st : State) : State :=
  {| user := user st; loading := l |}.

Definition isAuthenticated (st : State) : bool :=
  match user st with Some _ => true | None => false end.

Definition isAdmin (st : State) : bool :=
  match user st with
  | Some u => bool_decide (u !! "role" = Some "admin")
  | None => false
  end.

Section Provider.

Variable VITE_API_URL : option string.
Variable network : list Event → Config → Reply.
Variable detail : Json → option (list ValidationItem).

(** response.user, the member of a login or registration response. *)
Variable response_user : Json → option Json.

Definition checkAuth (w : World) (st : State) : World * State :=
  match truthy (localStorage w !! "access_token") with
  | None => (w, setLoading false st)
  | Some token =>
      match Service.getCurrentUser VITE_API_URL network w with
      | (w, Resolved userData) => (w, setLoading false (setUser (Some userData) st))
      | (w, Threw error) =>
          let w := removeItem "access_token" w in
          let w := removeItem "refresh_token" w in
          (w, setLoading false st)
      | (w, Unsettled) => (w, st)
      end
  end.

(** The statements of login and of register after the call of the
    service. *)
Definition store_session (response : Json) (w : World) (st : State) : World * State :=
  (* Store tokens *)
  let w := setItem "access_token"
             (default "undefined" (response !! "access_token")) w in
  let w := match truthy (response !! "refresh_token") with
           | Some refresh_token => setItem "refresh_token" refresh_token w
           | None => w
           end in
  (w, setUser (response_user response) st).

Definition login (email password : string) (w : World) (st : State)
    : World * State * Promise unit :=
  match Service.login VITE_API_URL network detail email password w with
  | (w, Resolved response) => (store_session response w st, Resolved ())
  | (w, Threw error) => (w, st, Threw error)
  | (w, Unsettled) => (w, st, Unsettled)
  end.

Definition register (email username password : string) (fullName : option string)
    (w : World) (st : State) : World * State * Promise unit :=
  match Service.register VITE_API_URL network detail email username password
          fullName w with
  | (w, Resolved response) => (store_session response w st, Resolved ())
  | (w, Threw error) => (w, st, Threw error)
  | (w, Unsettled) => (w, st, Unsettled)
  end.

Definition logout (w : World) (st : State) : World * State :=
  let after_call :=
    match truthy (localStorage w !! "refresh_token") with
    | Some refreshToken =>
        match Service.logout VITE_API_URL network refreshToken w with
        | (w, Unsettled) => None
        | (w, _) => Some w
        end
    | None => Some w
    end in
  match after_call with
  | Some w =>
      (* Clear tokens and user *)
      let w := removeItem "access_token" w in
      let w := removeItem "refresh_token" w in
      (w, setUser None st)
  | None => (w, st)
  end.

End Provider.

End AuthContext.
(** ** loadCustomization with the fetch it awaits *)

Section LoadFromBackend.

Variable engine : StyleEngine.
Variable VITE_API_URL : option string.
Variable network : list Event → Config → Reply.
Variable now : string.

(** The record that the body of a response is at run time: its groups as
    far as the body has them, every member that is present being of its
    declared type. A body that is no object at all (null, a text) reads as
    a record without groups: applyTheme throws on it before it writes
    anything, as it does when colors is missing. *)
Variable as_customization : Json → Customization.

Definition getCurrentCustomization (w : World) : World * Promise Customization :=
  match request VITE_API_URL network w
          (Service.call "get" "/customization/current" ∅) with
  | (w, Fulfilled response) => (w, Resolved (as_customization (response_data response)))
  | (w, Rejected error) => (w, Threw (AxiosThrown error))
  | (w, Unfinished) => (w, Unsettled)
  end.

(** loadCustomization on the settled fetch; None while it is not settled. *)
Definition load (w : World) (s : Provider)
    : World * option (Completion Thrown unit * Provider) :=
  match getCurrentCustomization w with
  | (w, Resolved data) =>
      (w, Some (loadCustomization engine VITE_API_URL now Thrown TypeErrorThrown
                  (Normal data) s))
  | (w, Threw error) =>
      (w, Some (loadCustomization engine VITE_API_URL now Thrown TypeErrorThrown
                  (Throw error) s))
  | (w, Unsettled) => (w, None)
  end.

End LoadFromBackend.

(** ** Scenarios for the methods and the authentication context *)

(** Counting the events of a history. *)
Definition is_sent (e : Event) : bool :=
  match e with ApiSent _ => true | _ => false end.

Definition is_refresh (e : Event) : bool :=
  match e with RefreshPosted _ => true | _ => false end.

Definition is_navigation (e : Event) : bool :=
  match e with Navigated _ => true | _ => false end.

Fixpoint count (p : Event → bool) (events : list Event) : nat :=
  match events with
  | [] => 0
  | e :: rest => (if p e then 1 else 0) + count p rest
  end%nat.

(** A backend that cannot be reached. *)
Definition offline_network (history : list Event) (config : Config) : Reply :=
  NoAnswer "Network Error".

(** A backend that rejects every request as invalid, and how the detail of
    its answer reads. *)
Definition validating_network (history : list Event) (config : Config) : Reply :=
  Answered 422 {[ "detail" := "[2 items]" ]}.

Definition demo_detail (body : Json) : option (list ValidationItem) :=
  match body !! "detail" with
  | Some _ => Some [ {| loc := Some ["body"; "email"]; msg := "value is not a valid email" |};
                     {| loc := None; msg := "field required" |} ]
  | None => None
  end.

(** A backend that answers 200 to everything, with a session. *)
Definition welcoming_network (history : list Event) (config : Config) : Reply :=
  Answered 200 {[ "access_token" := "a9"; "role" := "admin" ]}.

Definition demo_user (response : Json) : option Json :=
  match response !! "role" with
  | Some role => Some {[ "role" := role ]}
  | None => None
  end.

Definition signed_out : AuthContext.State :=
  {| AuthContext.user := None; AuthContext.loading := true |}.

(** The stale session on a chat page whose conversation is named login
    (the route /chat/:conversationId). *)
Definition world_stale_chat : World :=
  {| localStorage := {[ "access_token" := "a1"; "refresh_token" := "r0";
                        "sidebar" := "collapsed" ]};
     pathname := "/chat/login"; history := [] |}.

(** * Properties *)

(** ** Numbers and colour arithmetic *)

Example round_half_up : to_Z (Math_round 2.5%float) = Some 3.
Proof. vm_compute. reflexivity. Qed.

Example round_half_up_neg : to_Z (Math_round (-2.5)%float) = Some (-2).
Proof. vm_compute. reflexivity. Qed.

Example round_below_half : to_Z (Math_round 31.499999999999996%float) = Some 31.
Proof. vm_compute. reflexivity. Qed.

Example toString_244 : Number_toString (of_Z 244) = "244".
Proof. vm_compute. reflexivity. Qed.

Example scenario_A :
  option_map (fun c => adjustLightness c 0.95) (hexToRgb "#0EA5E9")
  = Some (mkRGB 243 251 254).
Proof. vm_compute. reflexivity. Qed.

Example scenario_B :
  option_map (fun c => adjustLightness c (-0.4)) (hexToRgb "#0EA5E9")
  = Some (mkRGB 8 99 140).
Proof. vm_compute. reflexivity. Qed.

Lemma adjustLightness_channels rgb amount :
  adjustLightness rgb amount
  = mkRGB (clamp (adjust amount (r rgb)))
          (clamp (adjust amount (g rgb)))
          (clamp (adjust amount (b rgb))).
Proof. reflexivity. Qed.

Lemma channel_values_complete (c : Z) : 0 ≤ c ≤ 255 → In c channel_values.
Proof.
  intros Hc. unfold channel_values.
  apply in_map_iff. exists (Z.to_nat c). split; [lia|].
  apply in_seq. lia.
Qed.

Lemma channel_table_ok :
  forallb (λ sh, forallb (channel_ok sh) channel_values) shades = true.
Proof. vm_compute. reflexivity. Qed.

Lemma channel_ok_all (sh : Shade) (c : Z) :
  In sh shades → 0 ≤ c ≤ 255 → channel_ok sh c = true.
Proof.
  intros Hsh Hc.
  pose proof channel_table_ok as H.
  rewrite forallb_forall in H. specialize (H sh Hsh).
  rewrite forallb_forall in H. apply H, channel_values_complete, Hc.
Qed.

Lemma channel_ok_inv (sh : Shade) (c : Z) :
  channel_ok sh c = true →
  ∃ factor out,
    spec_factor (shade_name sh) = Some factor
    ∧ to_Z (adjust (lightness sh) (of_Z c)) = Some out
    ∧ to_Z (clamp (adjust (lightness sh) (of_Z c))) = Some out
    ∧ out = spec_shade_channel c factor - binary64_shortfall (shade_name sh) c
    ∧ 0 ≤ out ≤ 255.
Proof.
  unfold channel_ok.
  destruct (spec_factor _) as [factor|]; [|discriminate].
  destruct (to_Z (adjust _ _)) as [raw|]; [|discriminate].
  destruct (to_Z (clamp _)) as [out|]; [|discriminate].
  intros H. repeat (apply andb_prop in H as [H ?]).
  exists factor, out. repeat split; try lia.
  f_equal. lia.
Qed.

Lemma hex_digit_range (c : ascii) (d : Z) : hex_digit c = Some d → 0 ≤ d ≤ 15.
Proof.
  unfold hex_digit. intros H.
  repeat match type of H with
         | (if ?t then _ else _) = _ => destruct t eqn:?
         end; inversion H; lia.
Qed.

Lemma parseInt16_pair (c1 c2 : ascii) :
  is_hex c1 = true → is_hex c2 = true →
  ∃ n, 0 ≤ n ≤ 255 ∧ parseInt16 (String c1 (String c2 EmptyString)) = of_Z n.
Proof.
  unfold is_hex, parseInt16. cbn [parse_hex_prefix].
  destruct (hex_digit c1) as [d1|] eqn:H1; [|discriminate].
  destruct (hex_digit c2) as [d2|] eqn:H2; [|discriminate].
  intros _ _. apply hex_digit_range in H1, H2. cbn [default].
  exists (16 * (16 * 0 + d1) + d2). split; [lia | reflexivity].
Qed.

(** A colour that parses has three integral channels between 0 and 255. *)
Lemma hexToRgb_channels (hex : string) (rgb : RGB) :
  hexToRgb hex = Some rgb →
  ∃ R G B, (0 ≤ R ≤ 255) ∧ (0 ≤ G ≤ 255) ∧ (0 ≤ B ≤ 255)
           ∧ rgb = mkRGB (of_Z R) (of_Z G) (of_Z B).
Proof.
  unfold hexToRgb, hex_pattern_exec.
  destruct (skip_optional_hash hex) as [|c1 [|c2 [|c3 [|c4 [|c5 [|c6 [|]]]]]]];
    try discriminate.
  destruct (forallb is_hex _) eqn:Hhex; [|discriminate].
  cbn [forallb] in Hhex.
  repeat (apply andb_prop in Hhex as [? Hhex]).
  destruct (parseInt16_pair c1 c2) as (R & HR & ->); [done..|].
  destruct (parseInt16_pair c3 c4) as (G & HG & ->); [done..|].
  destruct (parseInt16_pair c5 c6) as (B & HB & ->); [done..|].
  intros [= <-]. by exists R, G, B.
Qed.

(** Converting a channel value to a Number and reading it back is exact. *)
Lemma to_Z_of_Z_channel (c : Z) : 0 ≤ c ≤ 255 → to_Z (of_Z c) = Some c.
Proof.
  intros Hc.
  assert (forallb (λ c, match to_Z (of_Z c) with
                        | Some c' => c' =? c
                        | None => false
                        end) channel_values = true) as H
    by (vm_compute; reflexivity).
  rewrite forallb_forall in H.
  specialize (H c (channel_values_complete c Hc)).
  destruct (to_Z (of_Z c)); [|discriminate]. f_equal. lia.
Qed.

(** C6: for integral channels in [0,255] and every row of the shade table,
    each output channel of adjustLightness is an integer in [0,255]; it is
    the clamp of the adjusted value of the same input channel alone (and on
    these inputs the adjusted value is already in range). *)
Theorem adjustLightness_in_range (R G B : Z) (sh : Shade) :
  0 ≤ R ≤ 255 → 0 ≤ G ≤ 255 → 0 ≤ B ≤ 255 → In sh shades →
  let out := adjustLightness (mkRGB (of_Z R) (of_Z G) (of_Z B)) (lightness sh) in
  ∃ R' G' B',
    to_Z (r out) = Some R' ∧ to_Z (g out) = Some G' ∧ to_Z (b out) = Some B'
    ∧ (0 ≤ R' ≤ 255) ∧ (0 ≤ G' ≤ 255) ∧ (0 ≤ B' ≤ 255)
    ∧ r out = clamp (adjust (lightness sh) (of_Z R))
    ∧ g out = clamp (adjust (lightness sh) (of_Z G))
    ∧ b out = clamp (adjust (lightness sh) (of_Z B))
    ∧ to_Z (adjust (lightness sh) (of_Z R)) = Some R'
    ∧ to_Z (adjust (lightness sh) (of_Z G)) = Some G'
    ∧ to_Z (adjust (lightness sh) (of_Z B)) = Some B'.
Proof.
  intros HR HG HB Hsh out. subst out.
  rewrite adjustLightness_channels. cbn [r g b].
  destruct (channel_ok_inv sh R (channel_ok_all sh R Hsh HR))
    as (? & R' & _ & HrawR & HoutR & _ & HR').
  destruct (channel_ok_inv sh G (channel_ok_all sh G Hsh HG))
    as (? & G' & _ & HrawG & HoutG & _ & HG').
  destruct (channel_ok_inv sh B (channel_ok_all sh B Hsh HB))
    as (? & B' & _ & HrawB & HoutB & _ & HB').
  exists R', G', B'. repeat split; try done; lia.
Qed.

(** The theorem at #0EA5E9 and shade 900. *)
Lemma adjustLightness_in_range_witness :
  0 ≤ 14 ≤ 255 ∧ 0 ≤ 165 ≤ 255 ∧ 0 ≤ 233 ≤ 255
  ∧ In (mkShade "900" (-0.4)) shades
  ∧ ∃ R' G' B',
      let out := adjustLightness (mkRGB (of_Z 14) (of_Z 165) (of_Z 233))
                   (lightness (mkShade "900" (-0.4))) in
      to_Z (r out) = Some R' ∧ to_Z (g out) = Some G' ∧ to_Z (b out) = Some B'
      ∧ (0 ≤ R' ≤ 255) ∧ (0 ≤ G' ≤ 255) ∧ (0 ≤ B' ≤ 255).
Proof.
  assert (In (mkShade "900" (-0.4)) shades) as Hin
    by (cbn; do 9 right; left; reflexivity).
  repeat split; try lia; try exact Hin.
  destruct (adjustLightness_in_range 14 165 233 (mkShade "900" (-0.4)))
    as (R' & G' & B' & H); [lia | lia | lia | exact Hin |].
  exists R', G', B'. cbv zeta. tauto.
Defined.

(** C5, as the code has it: for every colour that parses and every row of
    the shade table, each output channel is the value of the formula of the
    specification, computed exactly with ties rounded up, except that at
    level 800 the channels 45, 85, 165 and 175 come out one lower (binary64
    arithmetic falls short of the tie). At factor 0 the formula is the
    input channel. *)
Theorem shade_formula_binary64 (hex : string) (rgb : RGB) (sh : Shade) (factor : Q) :
  hexToRgb hex = Some rgb → In sh shades →
  spec_factor (shade_name sh) = Some factor →
  let out := adjustLightness rgb (lightness sh) in
  ∃ R G B,
    to_Z (r rgb) = Some R ∧ to_Z (g rgb) = Some G ∧ to_Z (b rgb) = Some B
    ∧ (0 ≤ R ≤ 255) ∧ (0 ≤ G ≤ 255) ∧ (0 ≤ B ≤ 255)
    ∧ to_Z (r out)
      = Some (spec_shade_channel R factor - binary64_shortfall (shade_name sh) R)
    ∧ to_Z (g out)
      = Some (spec_shade_channel G factor - binary64_shortfall (shade_name sh) G)
    ∧ to_Z (b out)
      = Some (spec_shade_channel B factor - binary64_shortfall (shade_name sh) B).
Proof.
  intros Hparse Hsh Hfactor out. subst out.
  destruct (hexToRgb_channels hex rgb Hparse) as (R & G & B & HR & HG & HB & ->).
  rewrite adjustLightness_channels. cbn [r g b].
  exists R, G, B.
  rewrite !to_Z_of_Z_channel by done.
  destruct (channel_ok_inv sh R (channel_ok_all sh R Hsh HR))
    as (f1 & ? & Hf1 & _ & -> & -> & _).
  destruct (channel_ok_inv sh G (channel_ok_all sh G Hsh HG))
    as (f2 & ? & Hf2 & _ & -> & -> & _).
  destruct (channel_ok_inv sh B (channel_ok_all sh B Hsh HB))
    as (f3 & ? & Hf3 & _ & -> & -> & _).
  rewrite Hfactor in Hf1, Hf2, Hf3.
  injection Hf1 as <-. injection Hf2 as <-. injection Hf3 as <-.
  repeat split; (done || lia).
Qed.

(** The theorem at #0EA5E9 and shade 50: red 14 becomes 243, green 165
    becomes 251 and blue 233 becomes 254. *)
Lemma shade_formula_binary64_witness :
  hexToRgb "#0EA5E9" = Some (mkRGB 14 165 233)
  ∧ In (mkShade "50" 0.95) shades
  ∧ spec_factor "50" = Some (95 # 100)%Q
  ∧ to_Z (r (adjustLightness (mkRGB 14 165 233) 0.95)) = Some 243
  ∧ to_Z (g (adjustLightness (mkRGB 14 165 233) 0.95)) = Some 251
  ∧ to_Z (b (adjustLightness (mkRGB 14 165 233) 0.95)) = Some 254.
Proof.
  assert (hexToRgb "#0EA5E9" = Some (mkRGB 14 165 233)) as Hparse
    by (vm_compute; reflexivity).
  assert (In (mkShade "50" 0.95) shades) as Hin by (left; reflexivity).
  assert (spec_factor "50" = Some (95 # 100)%Q) as Hf by reflexivity.
  do 3 (split; [done|]).
  destruct (shade_formula_binary64 "#0EA5E9" (mkRGB 14 165 233)
              (mkShade "50" 0.95) (95 # 100)%Q Hparse Hin Hf)
    as (R & G & B & HR & HG & HB & _ & _ & _ & Hr & Hg & Hb).
  cbn [r g b shade_name lightness] in *.
  assert (R = 14) as -> by (vm_compute in HR; congruence).
  assert (G = 165) as -> by (vm_compute in HG; congruence).
  assert (B = 233) as -> by (vm_compute in HB; congruence).
  rewrite Hr, Hg, Hb. repeat split.
Defined.

(** C5 as stated fails twice over. The worked instance is miscalculated:
    14 + (255 - 14) * 0.95 is 242.95, so the red channel of #0EA5E9 at
    shade 50 is 243, in the code and in the formula alike. And the exact
    formula is not what the code computes everywhere: for #2D55A5 at level
    800 the exact value of 45 * (1 - 0.3) is the tie 31.5, which rounds to
    32, while the code yields 31. *)
Lemma shade_formula_exact_counterexample :
  hexToRgb "#0EA5E9" = Some (mkRGB 14 165 233)
  ∧ In (mkShade "50" 0.95) shades
  ∧ to_Z (r (adjustLightness (mkRGB 14 165 233) 0.95)) = Some 243
  ∧ spec_shade_channel 14 (95 # 100) = 243
  ∧ 243 ≠ 244
  ∧ hexToRgb "#2D55A5" = Some (mkRGB 45 85 165)
  ∧ In (mkShade "800" (-0.3)) shades
  ∧ spec_factor "800" = Some (- (30 # 100))%Q
  ∧ spec_shade_channel 45 (- (30 # 100)) = 32
  ∧ to_Z (r (adjustLightness (mkRGB 45 85 165) (-0.3))) = Some 31
  ∧ to_Z (r (adjustLightness (mkRGB 45 85 165) (-0.3)))
    ≠ Some (spec_shade_channel 45 (- (30 # 100))).
Proof.
  repeat split; try (vm_compute; reflexivity); try (cbn; tauto);
    vm_compute; congruence.
Qed.

(** ** The style variables applyTheme writes *)

Arguments ramp_value : simpl never.
Arguments Number_toString : simpl never.

Lemma foldl_write_lookup (engine : StyleEngine) (ws : list (string * string))
    (m : gmap string string) (k : string) :
  foldl (write engine) m ws !! k = match last_effect engine k ws with
                                   | Some e => e
                                   | None => m !! k
                                   end.
Proof.
  revert m. induction ws as [|[k' v] ws IH]; intros m; [done|].
  cbn [foldl last_effect]. rewrite IH.
  destruct (last_effect engine k ws); [done|].
  unfold write; cbn [fst snd].
  destruct (String.eqb_spec k' k) as [->|Hne].
  - destruct (effect engine k v) as [[text|]|]; [|by rewrite lookup_delete_eq|done].
    by rewrite lookup_insert_eq.
  - destruct (effect engine k' v) as [[text|]|]; [|by rewrite lookup_delete_ne|done].
    by rewrite lookup_insert_ne.
Qed.

Lemma last_effect_app (engine : StyleEngine) (k : string)
    (ws1 ws2 : list (string * string)) :
  last_effect engine k (ws1 ++ ws2) = match last_effect engine k ws2 with
                                      | Some e => Some e
                                      | None => last_effect engine k ws1
                                      end.
Proof.
  induction ws1 as [|[k' v] ws1 IH]; cbn [app last_effect].
  - by destruct (last_effect engine k ws2).
  - rewrite IH. by destruct (last_effect engine k ws2).
Qed.

Lemma last_write_app (k : string) (ws1 ws2 : list (string * string)) :
  last_write k (ws1 ++ ws2) = match last_write k ws2 with
                              | Some v => Some v
                              | None => last_write k ws1
                              end.
Proof.
  induction ws1 as [|[k' v] ws1 IH]; cbn [app last_write].
  - by destruct (last_write k ws2).
  - rewrite IH. by destruct (last_write k ws2).
Qed.

(** Plain text is not empty, and the engine carries out a call that writes
    it to a custom property. *)
Lemma effect_plain (engine : StyleEngine) (name value : string) :
  plain_write (name, value) = true → effect engine name value = Some (Some value).
Proof.
  unfold plain_write. cbn [fst snd]. intros H.
  apply andb_prop in H as [Hname Hvalue].
  unfold effect. rewrite (parse_plain engine name value Hname Hvalue).
  by destruct value.
Qed.

(** Where every call that writes [k] writes plain text, the last of them
    decides, and what it wrote is in the variable. *)
Lemma last_effect_plain (engine : StyleEngine) (k : string)
    (ws : list (string * string)) :
  forallb (λ kv, negb (String.eqb kv.1 k) || plain_write kv) ws = true →
  last_effect engine k ws = option_map Some (last_write k ws).
Proof.
  induction ws as [|[k' v] ws IH]; [done|].
  cbn [forallb last_effect last_write fst]. intros H.
  apply andb_prop in H as [Hkv Hws]. rewrite (IH Hws).
  destruct (last_write k ws); [done|]. cbn [option_map].
  destruct (String.eqb k' k); [|done].
  cbn [negb orb] in Hkv. by rewrite effect_plain.
Qed.

Lemma last_effect_key (engine : StyleEngine) (k : string)
    (ws : list (string * string)) (e : option string) :
  last_effect engine k ws = Some e → In k (map fst ws).
Proof.
  induction ws as [|[k' v'] ws IH]; [done|]. cbn [last_effect map fst In].
  destruct (last_effect engine k ws).
  - intros H. right. by apply IH.
  - destruct (String.eqb_spec k' k); [by left | done].
Qed.

Lemma last_effect_not_key (engine : StyleEngine) (k : string)
    (ws : list (string * string)) :
  ¬ In k (map fst ws) → last_effect engine k ws = None.
Proof.
  intros Hk. destruct (last_effect engine k ws) eqn:Hw; [|done].
  exfalso. by eapply Hk, last_effect_key.
Qed.

(** Where the engine carries out every call, each variable that is written
    at all is decided by the calls. *)
Lemma last_effect_is_key (engine : StyleEngine) (k : string)
    (ws : list (string * string)) :
  Forall (λ kv, is_Some (effect engine kv.1 kv.2)) ws →
  In k (map fst ws) → is_Some (last_effect engine k ws).
Proof.
  induction ws as [|[k' v] ws IH]; [done|]. cbn [map fst In last_effect].
  intros Hall Hin. apply Forall_cons in Hall as [Hkv Hall]. cbn [fst snd] in Hkv.
  destruct (last_effect engine k ws) as [e|] eqn:He; [by eexists|].
  destruct Hin as [-> | Hin].
  - by rewrite String.eqb_refl.
  - destruct (IH Hall Hin) as [e He']. congruence.
Qed.

Lemma setProperty_fields (engine : StyleEngine) (name value : string) (doc : Document) :
  root_style (setProperty engine name value doc)
  = write engine (root_style doc) (name, value)
  ∧ body_fontFamily (setProperty engine name value doc) = body_fontFamily doc
  ∧ icon_link (setProperty engine name value doc) = icon_link doc
  ∧ title (setProperty engine name value doc) = title doc.
Proof.
  unfold setProperty, write, effect. cbn [fst snd].
  destruct value; [done|]. by destruct (parse_value engine name _).
Qed.

Lemma setProperty_style (engine : StyleEngine) (name value : string) (doc : Document) :
  root_style (setProperty engine name value doc)
  = write engine (root_style doc) (name, value).
Proof. apply setProperty_fields. Qed.

Lemma generateColorShades_fold {A} (engine : StyleEngine) (key value : A → string)
    (l : list A) (doc : Document) :
  let doc' := foldl (λ d x, setProperty engine (key x) (value x) d) doc l in
  root_style doc' = foldl (write engine) (root_style doc) (map (λ x, (key x, value x)) l)
  ∧ body_fontFamily doc' = body_fontFamily doc
  ∧ icon_link doc' = icon_link doc
  ∧ title doc' = title doc.
Proof.
  revert doc. induction l as [|x l IH]; intros doc; [done|].
  cbn [foldl map].
  destruct (IH (setProperty engine (key x) (value x) doc)) as (-> & -> & -> & ->).
  by destruct (setProperty_fields engine (key x) (value x) doc) as (-> & -> & -> & ->).
Qed.

Lemma generateColorShades_style (engine : StyleEngine) (baseColor name : string)
    (doc : Document) :
  root_style (generateColorShades engine baseColor name doc)
  = foldl (write engine) (root_style doc) (ramp_writes baseColor name).
Proof.
  unfold generateColorShades, ramp_writes.
  destruct (hexToRgb baseColor) as [rgb|]; [|done].
  apply (generateColorShades_fold engine (ramp_variable name) (ramp_value rgb)).
Qed.

Lemma generateColorShades_fields (engine : StyleEngine) (baseColor name : string)
    (doc : Document) :
  body_fontFamily (generateColorShades engine baseColor name doc) = body_fontFamily doc
  ∧ icon_link (generateColorShades engine baseColor name doc) = icon_link doc
  ∧ title (generateColorShades engine baseColor name doc) = title doc.
Proof.
  unfold generateColorShades. destruct (hexToRgb baseColor) as [rgb|]; [|done].
  apply (generateColorShades_fold engine (ramp_variable name) (ramp_value rgb)).
Qed.

Section ThemeProperties.

Variable engine : StyleEngine.
Variable E : Type.
Variable TypeError : E.

Local Abbreviation apply_theme env := (applyTheme engine env E TypeError).

Lemma set_body_fontFamily_style (family : string) (doc : Document) :
  root_style (set_body_fontFamily engine family doc) = root_style doc.
Proof.
  unfold set_body_fontFamily. destruct family; [done|].
  by destruct (parse_value engine "font-family" _).
Qed.

(** applyTheme, stage by stage. *)
Lemma applyTheme_stages (env : option string) (c : Customization) (doc : Document) :
  apply_theme env c doc
  = match colors c with
    | None => (Throw TypeError, doc)
    | Some cs =>
        title_stage TypeError c
          (favicon_stage env c
             (tailwind_stage engine cs
                (set_all engine (layout_writes (layout c))
                   (typography_stage engine (typography c)
                      (set_all engine (color_writes cs) doc)))))
    end.
Proof.
  unfold applyTheme. destruct (colors c) as [cs|]; [|reflexivity].
  destruct (layout c); reflexivity.
Qed.

Lemma set_all_fields (ws : list (string * string)) (doc : Document) :
  root_style (set_all engine ws doc) = foldl (write engine) (root_style doc) ws
  ∧ body_fontFamily (set_all engine ws doc) = body_fontFamily doc
  ∧ icon_link (set_all engine ws doc) = icon_link doc
  ∧ title (set_all engine ws doc) = title doc.
Proof.
  destruct (generateColorShades_fold engine fst snd ws doc) as (H1 & H2 & H3 & H4).
  unfold set_all. rewrite H1, H2, H3, H4.
  assert (map (λ x : string * string, (x.1, x.2)) ws = ws) as ->; [|by repeat split].
  clear. induction ws as [|[k v] ws IH]; [done|]. cbn [map fst snd]. by rewrite IH.
Qed.

Lemma typography_stage_style (t : option CustomizationTypography) (doc : Document) :
  root_style (typography_stage engine t doc)
  = foldl (write engine) (root_style doc) (typography_writes t).
Proof.
  unfold typography_stage, typography_writes. destruct t as [t|]; [|done].
  destruct (truthy (font_family t)) as [family|]; cbn [app foldl];
    by rewrite !setProperty_style, ?set_body_fontFamily_style, ?setProperty_style.
Qed.

Lemma tailwind_stage_style (cs : CustomizationColors) (doc : Document) :
  root_style (tailwind_stage engine cs doc)
  = foldl (write engine) (root_style doc) (tailwind_writes cs).
Proof.
  unfold tailwind_stage, tailwind_writes.
  destruct (hexToRgb (primary cs)) as [rgb|]; [|done].
  cbn [foldl]. by rewrite !foldl_app, !generateColorShades_style, setProperty_style.
Qed.

Lemma applyTheme_style (env : option string) (c : Customization) (doc : Document) :
  root_style (apply_theme env c doc).2
  = foldl (write engine) (root_style doc) (style_writes c).
Proof.
  rewrite applyTheme_stages. unfold style_writes.
  destruct (colors c) as [cs|]; [|done].
  rewrite !foldl_app.
  rewrite <- (proj1 (set_all_fields (color_writes cs) doc)).
  rewrite <- typography_stage_style.
  rewrite <- (proj1 (set_all_fields (layout_writes (layout c)) _)).
  rewrite <- tailwind_stage_style.
  unfold title_stage, favicon_stage.
  destruct (branding c) as [bs|]; [destruct (truthy (app_name bs))|];
    by destruct (truthy (favicon_url c)).
Qed.

(** applyTheme throws exactly when the record lacks its colors or its
    branding. *)
Lemma applyTheme_completion (env : option string) (c : Customization) (doc : Document) :
  (apply_theme env c doc).1
  = match colors c, branding c with
    | Some _, Some _ => Normal ()
    | _, _ => Throw TypeError
    end.
Proof.
  unfold applyTheme. destruct (colors c); [|done].
  destruct (branding c) as [bs|]; [|done]. by destruct (truthy (app_name bs)).
Qed.

End ThemeProperties.

Lemma last_write_key (k : string) (ws : list (string * string)) (v : string) :
  last_write k ws = Some v → In k (map fst ws).
Proof.
  induction ws as [|[k' v'] ws IH]; [done|]. cbn [last_write map fst In].
  destruct (last_write k ws).
  - intros H. right. by apply IH.
  - destruct (String.eqb_spec k' k); [by left | done].
Qed.

Lemma ramp_writes_keys (baseColor name : string) :
  incl (map fst (ramp_writes baseColor name)) (map (ramp_variable name) shades).
Proof.
  unfold ramp_writes. destruct (hexToRgb baseColor); [|by intros ? []].
  rewrite map_map. cbn [fst]. by intros ?.
Qed.

Lemma setting_writes_keys (c : Customization) :
  incl (map fst (typography_writes (typography c) ++ layout_writes (layout c)))
       setting_variables.
Proof.
  unfold typography_writes, layout_writes. rewrite map_app.
  apply incl_app.
  - destruct (typography c) as [t|]; [|by intros ? []].
    destruct (truthy (font_family t)); intros k Hk; cbn in *; tauto.
  - destruct (layout c); [|by intros ? []]. intros k Hk; cbn in *; tauto.
Qed.

Lemma tailwind_writes_keys (cs : CustomizationColors) :
  incl (map fst (tailwind_writes cs)) (setting_variables ++ ramp_variables).
Proof.
  unfold tailwind_writes, ramp_variables.
  destruct (hexToRgb (primary _)); [|by intros ? []].
  cbn [map fst]. rewrite !map_app.
  apply incl_cons; [apply in_or_app; left; cbn; tauto|].
  apply incl_appr.
  apply incl_app; [|apply incl_app].
  - apply incl_appl, ramp_writes_keys.
  - apply incl_appr, incl_appl, ramp_writes_keys.
  - apply incl_appr, incl_appr, ramp_writes_keys.
Qed.

Lemma rest_writes_keys (c : Customization) (cs : CustomizationColors) :
  incl (map fst (typography_writes (typography c) ++ layout_writes (layout c)
                 ++ tailwind_writes cs))
       (setting_variables ++ ramp_variables).
Proof.
  rewrite app_assoc, map_app. apply incl_app.
  - apply incl_appl, setting_writes_keys.
  - apply tailwind_writes_keys.
Qed.

(** applyTheme writes no style variable outside [theme_variables]. *)
Lemma style_writes_keys (c : Customization) :
  incl (map fst (style_writes c)) theme_variables.
Proof.
  unfold style_writes, theme_variables.
  destruct (colors c) as [cs|]; [|by intros ? []].
  rewrite map_app. apply incl_app.
  - apply incl_appl. by intros ?.
  - apply incl_appr, rest_writes_keys.
Qed.

Lemma applyTheme_frame (engine : StyleEngine) {E : Type} (TypeError : E)
    (env : option string) (c : Customization) (doc : Document) (k : string) :
  ¬ In k theme_variables →
  root_style (applyTheme engine env E TypeError c doc).2 !! k = root_style doc !! k.
Proof.
  intros Hk. rewrite applyTheme_style, foldl_write_lookup.
  rewrite last_effect_not_key; [done|].
  intros Hin. by apply Hk, (style_writes_keys c).
Qed.

(** What the default record writes. *)
Lemma default_writes_all (now : string) :
  forallb (λ k, String.eqb k "--font-family"
                || bool_decide (is_Some (last_write k (style_writes (DEFAULT_CUSTOMIZATION now)))))
          theme_variables = true.
Proof. vm_compute. reflexivity. Qed.

Lemma default_writes_no_font_family (now : string) :
  last_write "--font-family" (style_writes (DEFAULT_CUSTOMIZATION now)) = None.
Proof. vm_compute. reflexivity. Qed.

(** Every value the default record makes applyTheme write is plain text. *)
Lemma default_writes_plain (now : string) :
  forallb plain_write (style_writes (DEFAULT_CUSTOMIZATION now)) = true.
Proof. vm_compute. reflexivity. Qed.

Lemma plain_write_weaken (k : string) (ws : list (string * string)) :
  forallb plain_write ws = true →
  forallb (λ kv, negb (String.eqb kv.1 k) || plain_write kv) ws = true.
Proof.
  rewrite !forallb_forall. intros H kv Hkv. rewrite (H kv Hkv). apply orb_true_r.
Qed.

Lemma last_effect_default (engine : StyleEngine) (now : string) (k : string) :
  last_effect engine k (style_writes (DEFAULT_CUSTOMIZATION now))
  = option_map Some (last_write k (style_writes (DEFAULT_CUSTOMIZATION now))).
Proof. apply last_effect_plain, plain_write_weaken, default_writes_plain. Qed.

(** ** loadCustomization when the fetch fails *)

(** The catch block runs to its end: the default record has its colors and
    its branding. *)
Lemma loadCustomization_throw (engine : StyleEngine) {E : Type} (TypeError : E)
    (env : option string) (now : string) (e : E) (s : Provider) :
  loadCustomization engine env now E TypeError (Throw e) s
  = (Normal (),
     {| customization := Some (DEFAULT_CUSTOMIZATION now);
        loading := false;
        document := (applyTheme engine env E TypeError (DEFAULT_CUSTOMIZATION now)
                       (document s)).2 |}).
Proof.
  unfold loadCustomization, try_catch_finally, applyThemeM, setCustomization,
    setLoading, await, mbind, M_bind.
  cbn [customization loading document].
  pose proof (applyTheme_completion engine E TypeError env
                (DEFAULT_CUSTOMIZATION now) (document s)) as Hnormal.
  cbn [colors branding DEFAULT_CUSTOMIZATION] in Hnormal.
  destruct (applyTheme engine env E TypeError (DEFAULT_CUSTOMIZATION now) (document s))
    as [completion doc]. cbn [fst] in Hnormal. subst completion. reflexivity.
Qed.

(** C8, as the code has it: when the fetch fails, loadCustomization returns
    normally, having stored and applied the built-in default record; after
    that every managed style variable except --font-family is set (the
    default record has no font family, and the guarded write is skipped),
    and --font-family keeps whatever it held before. *)
Theorem loadCustomization_fetch_failure (engine : StyleEngine) {E : Type}
    (TypeError : E) (env : option string) (now : string) (e : E) (s : Provider) :
  let result := loadCustomization engine env now E TypeError (Throw e) s in
  result.1 = Normal ()
  ∧ customization result.2 = Some (DEFAULT_CUSTOMIZATION now)
  ∧ loading result.2 = false
  ∧ document result.2
    = (applyTheme engine env E TypeError (DEFAULT_CUSTOMIZATION now) (document s)).2
  ∧ Forall (λ k, k = "--font-family"
                 ∨ is_Some (root_style (document result.2) !! k)) theme_variables
  ∧ root_style (document result.2) !! "--font-family"
    = root_style (document s) !! "--font-family".
Proof.
  cbn zeta. rewrite loadCustomization_throw. cbn [fst snd customization loading document].
  do 4 (split; [reflexivity|]).
  split.
  - apply Forall_forall. intros k Hk.
    pose proof (default_writes_all now) as Hall.
    rewrite forallb_forall in Hall.
    specialize (Hall k (proj1 (list_elem_of_In _ _) Hk)).
    apply orb_prop in Hall as [Heq | Hset].
    + left. by apply String.eqb_eq.
    + right. apply bool_decide_eq_true in Hset as [v Hv].
      rewrite applyTheme_style, foldl_write_lookup, last_effect_default, Hv.
      by eexists.
  - by rewrite applyTheme_style, foldl_write_lookup, last_effect_default,
      default_writes_no_font_family.
Qed.

(** C8 as stated fails: on a fresh document, after a failed fetch the
    managed style variable --font-family is still unset. *)
Lemma loadCustomization_leaves_font_family_unset :
  let result := loadCustomization keeping_engine None "2024-01-01T00:00:00.000Z"
                  unit () (Throw ()) initial_provider in
  result.1 = Normal ()
  ∧ In "--font-family" theme_variables
  ∧ root_style (document result.2) !! "--font-family" = None
  ∧ ¬ Forall (λ k, is_Some (root_style (document result.2) !! k)) theme_variables.
Proof.
  cbn zeta. rewrite loadCustomization_throw. cbn [fst snd document].
  assert (In "--font-family" theme_variables) as Hin by (cbn; tauto).
  assert (root_style (applyTheme keeping_engine None unit ()
                        (DEFAULT_CUSTOMIZATION "2024-01-01T00:00:00.000Z")
                        (document initial_provider)).2
            !! "--font-family" = None) as Hnone.
  { by rewrite applyTheme_style, foldl_write_lookup, last_effect_default,
      default_writes_no_font_family. }
  repeat split; [done..|].
  intros Hall. rewrite Forall_forall in Hall.
  specialize (Hall _ (proj2 (list_elem_of_In _ _) Hin)).
  rewrite Hnone in Hall. by destruct Hall.
Qed.

(** ** The values the theme engine computes are plain text *)

Lemma append_cons (c : ascii) (s1 s2 : string) :
  String c s1 ++ s2 = String c (s1 ++ s2).
Proof. reflexivity. Qed.

Lemma append_assoc (s1 s2 s3 : string) :
  (s1 ++ s2) ++ s3 = s1 ++ s2 ++ s3.
Proof.
  induction s1 as [|c s1 IH]; [done|]. by rewrite !append_cons, IH.
Qed.

Lemma plain_chars_app (s1 s2 : string) :
  plain_chars (s1 ++ s2) = plain_chars s1 && plain_chars s2.
Proof.
  induction s1 as [|c s1 IH]; [done|]. rewrite append_cons. cbn [plain_chars].
  by rewrite IH, andb_assoc.
Qed.

Lemma plain_char_not_closing (c : ascii) :
  plain_char c = true → Ascii.eqb c ")" = false.
Proof. destruct c as [[] [] [] [] [] [] [] []]; vm_compute; congruence. Qed.

Lemma plain_arguments_closed (s : string) :
  plain_chars s = true → plain_arguments (s ++ ")") = true.
Proof.
  induction s as [|c s IH]; [done|]. rewrite append_cons. cbn [plain_chars plain_arguments].
  intros H. apply andb_prop in H as [Hc Hs].
  by rewrite (plain_char_not_closing c Hc), Hc, (IH Hs).
Qed.

Lemma ends_with_space_app (s1 s2 : string) :
  s2 ≠ "" → ends_with_space (s1 ++ s2) = ends_with_space s2.
Proof.
  intros Hs2. induction s1 as [|c s1 IH]; [done|].
  rewrite append_cons. cbn [ends_with_space]. rewrite IH.
  destruct (s1 ++ s2) eqn:Happ; [|done].
  destruct s1; [|done]. by destruct s2.
Qed.

Lemma plain_digit (d : ascii) (rest : string) :
  is_digit d = true →
  plain (String d rest) = plain_chars rest && negb (ends_with_space (String d rest)).
Proof.
  intros Hd. unfold plain. rewrite Hd. cbn [orb andb].
  destruct d as [[] [] [] [] [] [] [] []]; try reflexivity; vm_compute in Hd; congruence.
Qed.

Lemma channel_digits_checked :
  forallb (λ c, match string_of_Z c with
                | String d rest =>
                    is_digit d && plain_chars rest
                    && negb (ends_with_space (String d rest))
                | EmptyString => false
                end) channel_values = true.
Proof. vm_compute. reflexivity. Qed.

(** The decimal digits of a channel value. *)
Lemma channel_digits (c : Z) :
  0 ≤ c ≤ 255 →
  ∃ d rest, string_of_Z c = String d rest ∧ is_digit d = true
            ∧ plain_chars rest = true ∧ ends_with_space (String d rest) = false.
Proof.
  intros Hc. pose proof channel_digits_checked as H.
  rewrite forallb_forall in H. specialize (H c (channel_values_complete c Hc)).
  destruct (string_of_Z c) as [|d rest]; [done|].
  apply andb_prop in H as [H Hend]. apply andb_prop in H as [Hd Hrest].
  exists d, rest. repeat split; try done. by apply negb_true_iff.
Qed.

Lemma channel_digits_plain (c : Z) :
  0 ≤ c ≤ 255 → plain_chars (string_of_Z c) = true.
Proof.
  intros Hc. destruct (channel_digits c Hc) as (d & rest & -> & Hd & Hrest & _).
  cbn [plain_chars]. rewrite Hrest, andb_true_r.
  unfold plain_char. by rewrite Hd.
Qed.

Lemma rgb_text_plain (R G B : Z) :
  0 ≤ R ≤ 255 → 0 ≤ G ≤ 255 → 0 ≤ B ≤ 255 → plain (rgb_text R G B) = true.
Proof.
  intros HR HG HB. unfold rgb_text.
  change (plain_arguments
            (string_of_Z R ++ ", " ++ string_of_Z G ++ ", " ++ string_of_Z B ++ ")")
          = true).
  rewrite <- !append_assoc.
  apply plain_arguments_closed.
  rewrite !plain_chars_app.
  by rewrite !channel_digits_plain.
Qed.

Lemma channels_text_plain (R G B : Z) :
  0 ≤ R ≤ 255 → 0 ≤ G ≤ 255 → 0 ≤ B ≤ 255 →
  plain (string_of_Z R ++ ", " ++ string_of_Z G ++ ", " ++ string_of_Z B) = true.
Proof.
  intros HR HG HB.
  destruct (channel_digits R HR) as (d & rest & HeqR & Hd & Hrest & _).
  destruct (channel_digits B HB) as (d' & rest' & HeqB & _ & _ & Hend).
  rewrite HeqR, append_cons, (plain_digit d _ Hd).
  rewrite !plain_chars_app, Hrest, (channel_digits_plain G HG),
    (channel_digits_plain B HB).
  cbn [plain_chars andb]. apply negb_true_iff.
  change (ends_with_space
            (String d rest ++ ", " ++ string_of_Z G ++ ", " ++ string_of_Z B) = false).
  rewrite <- !append_assoc.
  rewrite ends_with_space_app by (by rewrite HeqB).
  by rewrite HeqB.
Qed.

Lemma Number_toString_integral (x : Number) (z : Z) :
  to_Z x = Some z → Number_toString x = string_of_Z z.
Proof.
  unfold Number_toString.
  destruct (Prim2SF x) eqn:Hx; intros Hz; try (by rewrite Hz);
    unfold to_Z in Hz; rewrite Hx in Hz; discriminate.
Qed.

(** The value of a ramp variable is the text rgb(R, G, B) of the three
    channels adjustLightness derives. *)
Lemma ramp_value_text (baseColor : string) (rgb : RGB) (sh : Shade) :
  hexToRgb baseColor = Some rgb → In sh shades →
  ∃ R G B,
    (0 ≤ R ≤ 255) ∧ (0 ≤ G ≤ 255) ∧ (0 ≤ B ≤ 255)
    ∧ to_Z (r (adjustLightness rgb (lightness sh))) = Some R
    ∧ to_Z (g (adjustLightness rgb (lightness sh))) = Some G
    ∧ to_Z (b (adjustLightness rgb (lightness sh))) = Some B
    ∧ ramp_value rgb sh = rgb_text R G B.
Proof.
  intros Hparse Hsh.
  destruct (hexToRgb_channels _ _ Hparse) as (R0 & G0 & B0 & HR0 & HG0 & HB0 & ->).
  destruct (channel_ok_inv sh R0 (channel_ok_all sh R0 Hsh HR0))
    as (_ & R & _ & _ & HR & _ & HRr).
  destruct (channel_ok_inv sh G0 (channel_ok_all sh G0 Hsh HG0))
    as (_ & G & _ & _ & HG & _ & HGr).
  destruct (channel_ok_inv sh B0 (channel_ok_all sh B0 Hsh HB0))
    as (_ & B & _ & _ & HB & _ & HBr).
  exists R, G, B. unfold ramp_value. rewrite adjustLightness_channels. cbn [r g b].
  do 6 (split; [done|]). unfold rgb_text.
  by rewrite (Number_toString_integral _ _ HR), (Number_toString_integral _ _ HG),
    (Number_toString_integral _ _ HB).
Qed.

Lemma ramp_writes_plain (baseColor name : string) :
  forallb plain_write (ramp_writes baseColor name) = true.
Proof.
  unfold ramp_writes. destruct (hexToRgb baseColor) as [rgb|] eqn:Hparse; [|done].
  apply forallb_forall. intros kv Hkv.
  apply in_map_iff in Hkv as (sh & <- & Hsh).
  destruct (ramp_value_text baseColor rgb sh Hparse Hsh)
    as (R & G & B & HR & HG & HB & _ & _ & _ & ->).
  unfold plain_write. cbn [fst snd]. by rewrite rgb_text_plain.
Qed.

Lemma tailwind_writes_plain (cs : CustomizationColors) :
  forallb plain_write (tailwind_writes cs) = true.
Proof.
  unfold tailwind_writes.
  destruct (hexToRgb (primary cs)) as [rgb|] eqn:Hparse; [|done].
  cbn [forallb]. rewrite !forallb_app, !ramp_writes_plain, !andb_true_r.
  destruct (hexToRgb_channels _ _ Hparse) as (R & G & B & HR & HG & HB & ->).
  unfold plain_write. cbn [fst snd r g b].
  rewrite (Number_toString_integral _ _ (to_Z_of_Z_channel R HR)),
    (Number_toString_integral _ _ (to_Z_of_Z_channel G HG)),
    (Number_toString_integral _ _ (to_Z_of_Z_channel B HB)).
  by rewrite channels_text_plain.
Qed.

(** ** The shade ramps applyTheme writes *)

Lemma last_write_not_key (k : string) (ws : list (string * string)) :
  ¬ In k (map fst ws) → last_write k ws = None.
Proof.
  intros Hk. destruct (last_write k ws) eqn:Hw; [|done].
  exfalso. by eapply Hk, last_write_key.
Qed.

Lemma last_write_map {A} (key value : A → string) (l : list A) (x : A) :
  NoDup (map key l) → In x l →
  last_write (key x) (map (λ y, (key y, value y)) l) = Some (value x).
Proof.
  induction l as [|y l IH]; [done|].
  cbn [map last_write In]. intros Hnd Hx.
  apply NoDup_cons in Hnd as [Hy Hnd].
  destruct Hx as [-> | Hx].
  - rewrite last_write_not_key, String.eqb_refl; [done|].
    rewrite map_map. cbn [fst]. by rewrite <- list_elem_of_In.
  - by rewrite IH.
Qed.

(** The names of the ramp variables are pairwise distinct and differ from
    the names of the other variables. *)
Lemma ramp_variable_distinct :
  Forall (λ name, Forall (λ sh,
    (ramp_variable name sh ∉ pre_variables)
    ∧ Forall (λ name', Forall (λ sh',
        (ramp_variable name sh = ramp_variable name' sh' →
         name = name' ∧ shade_name sh = shade_name sh')) shades) ramp_names)
    shades) ramp_names.
Proof. refine (bool_decide_unpack _ _). vm_compute. exact I. Qed.

Lemma ramp_variable_fresh (name : string) (sh : Shade) :
  In name ramp_names → In sh shades → ¬ In (ramp_variable name sh) pre_variables.
Proof.
  rewrite <- !list_elem_of_In. intros Hname Hsh.
  pose proof ramp_variable_distinct as H.
  rewrite Forall_forall in H. specialize (H name Hname).
  rewrite Forall_forall in H. by destruct (H sh Hsh).
Qed.

Lemma ramp_variable_inj (name name' : string) (sh sh' : Shade) :
  In name ramp_names → In name' ramp_names → In sh shades → In sh' shades →
  ramp_variable name sh = ramp_variable name' sh' →
  name = name' ∧ shade_name sh = shade_name sh'.
Proof.
  rewrite <- !list_elem_of_In. intros Hname Hname' Hsh Hsh'.
  pose proof ramp_variable_distinct as H.
  rewrite Forall_forall in H. specialize (H name Hname).
  rewrite Forall_forall in H. destruct (H sh Hsh) as [_ H'].
  rewrite Forall_forall in H'. specialize (H' name' Hname').
  rewrite Forall_forall in H'. exact (H' sh' Hsh').
Qed.

Lemma ramp_variable_NoDup (name : string) :
  In name ramp_names → NoDup (map (ramp_variable name) shades).
Proof.
  intros [<- | [<- | [<- | []]]]; refine (bool_decide_unpack _ _); vm_compute; exact I.
Qed.

(** The value a ramp of [name] leaves in the ramp variable of [name'] at
    shade [sh]. *)
Lemma last_write_ramp_writes (baseColor name name' : string) (sh : Shade) :
  In name ramp_names → In name' ramp_names → In sh shades →
  last_write (ramp_variable name' sh) (ramp_writes baseColor name)
  = if String.eqb name name'
    then option_map (λ rgb, ramp_value rgb sh) (hexToRgb baseColor)
    else None.
Proof.
  intros Hname Hname' Hsh. unfold ramp_writes.
  destruct (String.eqb_spec name name') as [<- | Hne].
  - destruct (hexToRgb baseColor) as [rgb|]; [|done]. cbn [option_map].
    apply (last_write_map (ramp_variable name) (ramp_value rgb));
      [by apply ramp_variable_NoDup | done].
  - apply last_write_not_key. intros Hin.
    apply (ramp_writes_keys baseColor name) in Hin.
    apply in_map_iff in Hin as (sh' & Heq & Hsh').
    by destruct (ramp_variable_inj name name' sh' sh Hname Hname' Hsh' Hsh Heq).
Qed.

Lemma pre_writes_keys (c : Customization) (cs : CustomizationColors) :
  incl (map fst (color_writes cs ++ typography_writes (typography c)
                 ++ layout_writes (layout c)))
       pre_variables.
Proof.
  unfold pre_variables. rewrite map_app. apply incl_app.
  - apply incl_appl. by intros ?.
  - apply incl_appr, setting_writes_keys.
Qed.

(** What the calls of applyTheme leave in a ramp variable: nothing new
    unless the primary colour parses; then the derived shade of the colour
    the ramp belongs to, if that colour parses. *)
Lemma last_write_style_ramp (c : Customization) (cs : CustomizationColors)
    (name : string) (sh : Shade) :
  colors c = Some cs → In name ramp_names → In sh shades →
  last_write (ramp_variable name sh) (style_writes c)
  = match hexToRgb (primary cs) with
    | Some _ =>
        option_map (λ rgb, ramp_value rgb sh)
          (hexToRgb (if String.eqb name "primary" then primary cs
                     else if String.eqb name "secondary" then secondary cs
                     else accent cs))
    | None => None
    end.
Proof.
  intros Hcs Hname Hsh.
  assert (last_write (ramp_variable name sh)
            (color_writes cs ++ typography_writes (typography c)
             ++ layout_writes (layout c)) = None) as Hpre.
  { apply last_write_not_key. intros Hin. apply pre_writes_keys in Hin.
    by apply (ramp_variable_fresh name sh). }
  unfold style_writes. rewrite Hcs.
  rewrite !app_assoc, last_write_app, <- !app_assoc, Hpre.
  unfold tailwind_writes.
  destruct (hexToRgb (primary cs)) as [p|] eqn:Hp; [|done].
  cbn [last_write].
  rewrite !last_write_app.
  rewrite !last_write_ramp_writes by (done || (cbn; tauto)).
  assert (String.eqb "--color-primary-rgb" (ramp_variable name sh) = false) as ->.
  { apply String.eqb_neq. intros Heq.
    apply (ramp_variable_fresh name sh Hname Hsh). rewrite <- Heq. cbn. tauto. }
  destruct Hname as [<- | [<- | [<- | []]]];
    cbn [String.eqb Ascii.eqb Bool.eqb option_map]; rewrite ?Hp;
    repeat match goal with
           | |- context [hexToRgb ?x] => destruct (hexToRgb x); cbn [option_map]
           end; reflexivity.
Qed.

(** Every call that writes a ramp variable writes plain text, so the engine
    carries it out as it is written. *)
Lemma last_effect_style_ramp (engine : StyleEngine) (c : Customization)
    (name : string) (sh : Shade) :
  In name ramp_names → In sh shades →
  last_effect engine (ramp_variable name sh) (style_writes c)
  = option_map Some (last_write (ramp_variable name sh) (style_writes c)).
Proof.
  intros Hname Hsh. apply last_effect_plain.
  unfold style_writes. destruct (colors c) as [cs|]; [|done].
  rewrite !app_assoc, forallb_app, <- !app_assoc. apply andb_true_intro. split.
  - apply forallb_forall. intros [k v] Hkv. cbn [fst].
    apply orb_true_intro. left. apply negb_true_iff, String.eqb_neq. intros ->.
    apply (ramp_variable_fresh name sh Hname Hsh), (pre_writes_keys c cs).
    by apply (in_map fst) in Hkv.
  - apply plain_write_weaken, tailwind_writes_plain.
Qed.

(** The base variable of a brand colour is decided by the call that writes
    the raw string. *)
Lemma last_effect_style_base (engine : StyleEngine) (c : Customization)
    (cs : CustomizationColors) (k : string) :
  colors c = Some cs →
  In k ["--color-primary"; "--color-secondary"; "--color-accent"] →
  last_effect engine k (style_writes c) = last_effect engine k (color_writes cs).
Proof.
  intros Hcs Hk. unfold style_writes. rewrite Hcs.
  rewrite last_effect_app, last_effect_not_key; [done|].
  intros Hin. apply rest_writes_keys in Hin. revert Hin.
  rewrite <- list_elem_of_In.
  destruct Hk as [<- | [<- | [<- | []]]];
    refine (bool_decide_unpack _ _); vm_compute; exact I.
Qed.

(** C7, as the code has it. On a record that has its colors, applyTheme
    calls setProperty for the base variable of each brand colour with the
    raw string, whether it parses or not: the variable ends up removed when
    the string is empty, holding the engine's text of the string when the
    engine takes it, and as it was when the engine rejects it. The shade
    ramps are gated on the primary colour: when it parses, the ramp of each
    brand colour that parses is derived and set, and the ramp of one that
    does not parse is skipped (its variables keep what they held); when the
    primary colour does not parse, all three ramps are skipped. Nothing is
    thrown for a colour that does not parse: a record that has its branding
    too is applied to the end. *)
Theorem applyTheme_unparseable_color (engine : StyleEngine) {E : Type}
    (TypeError : E) (env : option string) (c : Customization)
    (cs : CustomizationColors) (doc : Document) (sh : Shade) :
  colors c = Some cs → In sh shades →
  let result := applyTheme engine env E TypeError c doc in
  let style' := root_style result.2 in
  let base (name raw : string) :=
    style' !! name
    = match raw with
      | EmptyString => None
      | _ => match parse_value engine name raw with
             | Some text => Some text
             | None => root_style doc !! name
             end
      end in
  let derived (name base : string) :=
    style' !! ramp_variable name sh
    = match hexToRgb base with
      | Some rgb => Some (ramp_value rgb sh)
      | None => root_style doc !! ramp_variable name sh
      end in
  let skipped (name : string) :=
    style' !! ramp_variable name sh = root_style doc !! ramp_variable name sh in
  (is_Some (branding c) → result.1 = Normal ())
  ∧ base "--color-primary" (primary cs)
  ∧ base "--color-secondary" (secondary cs)
  ∧ base "--color-accent" (accent cs)
  ∧ match hexToRgb (primary cs) with
    | Some _ =>
        derived "primary" (primary cs) ∧ derived "secondary" (secondary cs)
        ∧ derived "accent" (accent cs)
    | None => skipped "primary" ∧ skipped "secondary" ∧ skipped "accent"
    end.
Proof.
  intros Hcs Hsh. cbn zeta.
  split.
  { intros [bs Hbs]. by rewrite applyTheme_completion, Hcs, Hbs. }
  rewrite !applyTheme_style, !foldl_write_lookup.
  rewrite !(last_effect_style_base engine c cs) by (done || (cbn; tauto)).
  do 3 (split; [cbn [last_effect color_writes String.eqb Ascii.eqb Bool.eqb];
                unfold effect;
                match goal with
                | |- context [parse_value engine ?n ?v] =>
                    by destruct v; [|destruct (parse_value engine n _)]
                end|]).
  rewrite !last_effect_style_ramp by (done || (cbn; tauto)).
  rewrite !(last_write_style_ramp c cs) by (done || (cbn; tauto)).
  cbn [String.eqb Ascii.eqb Bool.eqb].
  destruct (hexToRgb (primary cs)); [|done].
  destruct (hexToRgb (secondary cs)), (hexToRgb (accent cs)); done.
Qed.

(** The theorem at a record whose accent colour is a 3-digit shorthand:
    the accent ramp is skipped, the primary and secondary ramps are set.
    And at a record whose primary colour is the empty string, applied to a
    document that has the default theme: the base variable is removed, and
    the ramps stay as they were. *)
Lemma applyTheme_unparseable_color_witness :
  let result := applyTheme keeping_engine None unit () customization_short_accent
                  empty_document in
  let style' := root_style result.2 in
  let themed := (applyTheme keeping_engine None unit () (DEFAULT_CUSTOMIZATION "")
                   empty_document).2 in
  let style'' := root_style (applyTheme keeping_engine None unit ()
                               customization_empty_primary themed).2 in
  In (mkShade "900" (-0.4)) shades
  ∧ hexToRgb "#fff" = None
  ∧ result.1 = Normal ()
  ∧ style' !! "--color-accent" = Some "#fff"
  ∧ style' !! "--color-accent-900" = None
  ∧ style' !! "--color-primary-900" = Some "rgb(8, 99, 140)"
  ∧ style' !! "--color-secondary-900" = Some "rgb(130, 42, 143)"
  ∧ root_style themed !! "--color-primary" = Some "#0ea5e9"
  ∧ style'' !! "--color-primary" = None
  ∧ style'' !! "--color-primary-900" = Some "rgb(8, 99, 140)".
Proof.
  cbn zeta.
  assert (In (mkShade "900" (-0.4)) shades) as Hin
    by (cbn; do 9 right; left; reflexivity).
  split; [exact Hin|]. split; [reflexivity|].
  eassert (colors customization_short_accent = Some _) as Hcs by reflexivity.
  eassert (colors customization_empty_primary = Some _) as Hcs' by reflexivity.
  destruct (applyTheme_unparseable_color keeping_engine () None
              customization_short_accent _ empty_document (mkShade "900" (-0.4))
              Hcs Hin)
    as (Hnormal & _ & _ & Hacc & Hramps).
  split; [apply Hnormal; by eexists|].
  split; [exact Hacc|].
  cbn [primary] in Hramps.
  assert (hexToRgb "#0ea5e9" = Some (mkRGB 14 165 233)) as Hp
    by (vm_compute; reflexivity).
  rewrite Hp in Hramps. destruct Hramps as (Hprim & Hsec & Hac).
  split; [exact Hac|].
  split; [refine (eq_trans Hprim _); vm_compute; reflexivity|].
  split; [refine (eq_trans Hsec _); vm_compute; reflexivity|].
  split; [vm_compute; reflexivity|].
  destruct (applyTheme_unparseable_color keeping_engine () None
              customization_empty_primary _
              (applyTheme keeping_engine None unit () (DEFAULT_CUSTOMIZATION "")
                 empty_document).2
              (mkShade "900" (-0.4)) Hcs' Hin)
    as (_ & Hbase & _ & _ & Hskipped).
  split; [exact Hbase|].
  cbn [primary] in Hskipped.
  assert (hexToRgb "" = None) as Hnone by reflexivity.
  rewrite Hnone in Hskipped. destruct Hskipped as (Hprim' & _).
  refine (eq_trans Hprim' _). vm_compute. reflexivity.
Defined.

(** C7 as stated fails when the colour that does not parse is the primary
    one: the secondary colour parses, yet its ramp is not derived. *)
Lemma applyTheme_primary_gates_all_ramps :
  let style' := root_style (applyTheme keeping_engine None unit ()
                              customization_named_primary empty_document).2 in
  hexToRgb "red" = None
  ∧ hexToRgb "#d946ef" = Some (mkRGB 217 70 239)
  ∧ In (mkShade "50" 0.95) shades
  ∧ style' !! "--color-primary" = Some "red"
  ∧ style' !! "--color-secondary" = Some "#d946ef"
  ∧ style' !! ramp_variable "secondary" (mkShade "50" 0.95) = None
  ∧ style' !! "--color-secondary-50" = None.
Proof.
  cbn zeta.
  rewrite !applyTheme_style, !foldl_write_lookup.
  repeat split; try (vm_compute; reflexivity).
  left; reflexivity.
Qed.
(** ** The API service *)

Section ApiServiceProperties.

Variable VITE_API_URL : option string.
Variable network : list Event → Config → Reply.

Local Abbreviation refresh := (refresh_request VITE_API_URL).
Local Abbreviation on_rejected := (response_rejected VITE_API_URL network).
Local Abbreviation this_api := (api VITE_API_URL network).

Lemma request_interceptor_retry (w : World) (config : Config) :
  _retry (request_interceptor w config) = _retry config.
Proof.
  unfold request_interceptor.
  by destruct (truthy (localStorage w !! "access_token")).
Qed.

Lemma settle_error_config (config : Config) (reply : Reply) (error : AxiosError) :
  settle config reply = inl error → error_config error = config.
Proof.
  unfold settle. destruct reply as [status body|msg].
  - destruct (validateStatus status); [done|]. by intros [= <-].
  - by intros [= <-].
Qed.

(** A request that carries the flag is never handled again. *)
Lemma response_rejected_retried (resend : World → Config → World * Settled)
    (w : World) (error : AxiosError) :
  _retry (error_config error) = true →
  on_rejected resend w error = (w, Rejected error).
Proof.
  intros Hretry. unfold response_rejected.
  by rewrite Hretry, andb_false_r.
Qed.

(** Nor is an error whose status is not 401, or that has no response. *)
Lemma response_rejected_other (resend : World → Config → World * Settled)
    (w : World) (error : AxiosError) :
  status_is error 401 = false →
  on_rejected resend w error = (w, Rejected error).
Proof.
  intros Hstatus. unfold response_rejected. by rewrite Hstatus.
Qed.

Lemma api_unfold (fuel : nat) (w : World) (config : Config) :
  this_api (S fuel) w config
  = let config := request_interceptor w config in
    let reply := network (history w) config in
    let w := log (ApiSent config) w in
    match settle config reply with
    | inr response => (w, Fulfilled response)
    | inl error => on_rejected (this_api fuel) w error
    end.
Proof. reflexivity. Qed.

Lemma api_retried (fuel : nat) (w : World) (config : Config) :
  _retry config = true →
  this_api (S fuel) w config
  = (log (ApiSent (request_interceptor w config)) w,
     settled (settle (request_interceptor w config)
                (network (history w) (request_interceptor w config)))).
Proof.
  intros Hretry. rewrite api_unfold. cbn zeta.
  destruct (settle _ _) as [error|response] eqn:Hsettle; [|done].
  apply response_rejected_retried.
  by rewrite (settle_error_config _ _ _ Hsettle), request_interceptor_retry.
Qed.

(** Fuel beyond two changes nothing, and two units never run out. *)
Lemma api_fuel_enough (fuel : nat) (w : World) (config : Config) :
  this_api (S (S fuel)) w config = request VITE_API_URL network w config
  ∧ (this_api (S (S fuel)) w config).2 ≠ Unfinished.
Proof.
  assert (∀ n, this_api (S (S n)) w config = this_api 2 w config
               ∧ (this_api (S (S n)) w config).2 ≠ Unfinished) as H; [|apply H].
  intros n. rewrite !(api_unfold (S _)). cbn zeta.
  destruct (settle _ _) as [error|response] eqn:Hsettle; [|done].
  apply settle_error_config in Hsettle.
  unfold response_rejected.
  destruct (status_is error 401 && negb (_retry (error_config error))); [|done].
  destruct (truthy (localStorage _ !! "refresh_token")); [|done].
  destruct (settle (refresh _) _); [done|].
  rewrite !api_retried by done. by destruct (settle _ _).
Qed.

(** The first 401 of a request that is not flagged. *)
Lemma api_first_401 (fuel : nat) (w : World) (config : Config) (body : Json) :
  _retry config = false →
  let sent := request_interceptor w config in
  network (history w) sent = Answered 401 body →
  this_api (S fuel) w config
  = on_rejected (this_api fuel) (log (ApiSent sent) w) (status_error sent 401 body).
Proof.
  intros Hretry sent Hreply. rewrite api_unfold. cbn zeta.
  fold sent. by rewrite Hreply.
Qed.

(** Enter the 401 branch of the interceptor: after the first send the
    request is known by its flag only. *)
Ltac first_401 fuel w config body Hretry Hreply sent :=
  rewrite (api_first_401 fuel w config body Hretry Hreply);
  let Hsent := fresh "Hsent" in
  pose proof (request_interceptor_retry w config) as Hsent;
  fold sent in Hsent |- *; rewrite Hretry in Hsent; clearbody sent;
  unfold response_rejected, status_is;
  cbn [error_config error_response status_error status]; rewrite Hsent.

Lemma api_401_no_refresh_token (fuel : nat) (w : World) (config : Config) (body : Json) :
  _retry config = false →
  let sent := request_interceptor w config in
  network (history w) sent = Answered 401 body →
  truthy (localStorage w !! "refresh_token") = None →
  this_api (S fuel) w config
  = ({| localStorage := ∅; pathname := "/login";
        history := history w ++ [ApiSent sent; Navigated "/login"] |},
     Rejected (with_config (set_retry true sent) (status_error sent 401 body))).
Proof.
  intros Hretry sent Hreply Htoken.
  first_401 fuel w config body Hretry Hreply sent.
  cbn [Z.eqb Pos.eqb negb andb log localStorage]. rewrite Htoken.
  unfold navigate, clear, log. cbn [localStorage pathname history].
  by rewrite <- app_assoc.
Qed.

Lemma api_401_refresh_failed (fuel : nat) (w : World) (config : Config)
    (body : Json) (refreshToken : string) (refreshError : AxiosError) :
  _retry config = false →
  let sent := request_interceptor w config in
  network (history w) sent = Answered 401 body →
  truthy (localStorage w !! "refresh_token") = Some refreshToken →
  settle (refresh refreshToken)
    (network (history w ++ [ApiSent sent]) (refresh refreshToken))
  = inl refreshError →
  this_api (S fuel) w config
  = ({| localStorage := delete "refresh_token" (delete "access_token" (localStorage w));
        pathname := if negb (includes (pathname w) "/login")
                    then "/login" else pathname w;
        history := history w
                   ++ [ApiSent sent; RefreshPosted (refresh refreshToken)]
                   ++ (if negb (includes (pathname w) "/login")
                       then [Navigated "/login"] else []) |},
     Rejected refreshError).
Proof.
  intros Hretry sent Hreply Htoken Hrefresh.
  first_401 fuel w config body Hretry Hreply sent.
  cbn [Z.eqb Pos.eqb negb andb log localStorage history]. rewrite Htoken.
  rewrite Hrefresh.
  unfold navigate, removeItem, log. cbn [localStorage pathname history].
  destruct (includes (pathname w) "/login"); cbn [negb];
    cbn [localStorage pathname history]; by rewrite <- !app_assoc.
Qed.

Lemma api_401_refreshed (fuel : nat) (w : World) (config : Config)
    (body : Json) (refreshToken : string) (response : Response) :
  _retry config = false →
  let sent := request_interceptor w config in
  network (history w) sent = Answered 401 body →
  truthy (localStorage w !! "refresh_token") = Some refreshToken →
  settle (refresh refreshToken)
    (network (history w ++ [ApiSent sent]) (refresh refreshToken))
  = inr response →
  let access_token := default "undefined" (response_data response !! "access_token") in
  let resent := set_header "Authorization" ("Bearer " ++ access_token)
                  (set_retry true sent) in
  let refreshed :=
    {| localStorage := <["access_token" := access_token]> (localStorage w);
       pathname := pathname w;
       history := history w ++ [ApiSent sent; RefreshPosted (refresh refreshToken)] |} in
  this_api (S (S fuel)) w config
  = (log (ApiSent resent) refreshed,
     settled (settle resent (network (history refreshed) resent))).
Proof.
  intros Hretry sent Hreply Htoken Hrefresh access_token resent refreshed.
  first_401 (S fuel) w config body Hretry Hreply sent.
  cbn [Z.eqb Pos.eqb negb andb log localStorage history]. rewrite Htoken.
  rewrite Hrefresh. fold access_token. fold resent.
  unfold setItem, log. cbn [localStorage pathname history].
  rewrite <- app_assoc. cbn [app]. fold refreshed.
  rewrite api_retried by done.
  replace (request_interceptor refreshed resent) with resent; [done|].
  unfold request_interceptor, refreshed. cbn [localStorage].
  rewrite lookup_insert_eq.
  destruct access_token as [|a s]; [done|]. cbn [truthy].
  unfold resent, set_header. cbn [headers url method data _retry].
  by rewrite insert_insert_eq.
Qed.

Lemma settle_failed (config : Config) (reply : Reply) :
  failed reply → ∃ error, settle config reply = inl error.
Proof.
  destruct reply as [status body|msg]; cbn [failed settle].
  - intros ->. by eexists.
  - intros _. by eexists.
Qed.

(** C1: a request that is not flagged gets a 401, a refresh token is
    stored and the refresh endpoint answers with a valid status and a new
    access token. Then the token is stored, the request is sent once more
    and only once, flagged and with the Authorization header of the new
    token, and the caller observes exactly how that resend settles. *)
Theorem refresh_then_single_resend (fuel : nat) (w : World) (config : Config)
    (body : Json) (refreshToken : string) (status' : Z) (body' : Json)
    (access_token : string) :
  _retry config = false →
  let sent := request_interceptor w config in
  network (history w) sent = Answered 401 body →
  truthy (localStorage w !! "refresh_token") = Some refreshToken →
  network (history w ++ [ApiSent sent]) (refresh refreshToken)
  = Answered status' body' →
  validateStatus status' = true →
  body' !! "access_token" = Some access_token →
  let resent := set_header "Authorization" ("Bearer " ++ access_token)
                  (set_retry true sent) in
  let before_resend : list Event :=
    (history w ++ [ApiSent sent; RefreshPosted (refresh refreshToken)])%list in
  this_api (S (S fuel)) w config
  = ({| localStorage := <["access_token" := access_token]> (localStorage w);
        pathname := pathname w;
        history := before_resend ++ [ApiSent resent] |},
     settled (settle resent (network before_resend resent)))
  ∧ headers resent !! "Authorization" = Some ("Bearer " ++ access_token).
Proof.
  intros Hretry sent Hreply Htoken Hrefresh Hvalid Hbody resent before_resend.
  split; [|apply lookup_insert_eq].
  assert (settle (refresh refreshToken)
            (network (history w ++ [ApiSent sent]) (refresh refreshToken))
          = inr {| status := status'; response_data := body';
                   response_config := refresh refreshToken |}) as Hsettle
    by (rewrite Hrefresh; cbn [settle]; by rewrite Hvalid).
  rewrite (api_401_refreshed fuel w config body refreshToken _
             Hretry Hreply Htoken Hsettle).
  cbn [response_data]. rewrite Hbody. reflexivity.
Qed.

(** C2: a request that already carries the flag and gets a 401 is sent
    that one time only; nothing is refreshed, stored or navigated, and the
    401 error is what the caller gets. *)
Theorem second_401_not_retried (fuel : nat) (w : World) (config : Config)
    (body : Json) :
  _retry config = true →
  let sent := request_interceptor w config in
  network (history w) sent = Answered 401 body →
  this_api (S fuel) w config
  = ({| localStorage := localStorage w; pathname := pathname w;
        history := history w ++ [ApiSent sent] |},
     Rejected (status_error sent 401 body)).
Proof.
  intros Hretry sent Hreply.
  rewrite api_retried by done. fold sent. by rewrite Hreply.
Qed.

(** C3: a first 401 with no refresh token in storage clears the storage
    and navigates to /login; the refresh endpoint is not called, and the
    caller gets the 401 error (whose request now carries the flag). *)
Theorem unauthorized_without_refresh_token (fuel : nat) (w : World)
    (config : Config) (body : Json) :
  _retry config = false →
  let sent := request_interceptor w config in
  network (history w) sent = Answered 401 body →
  truthy (localStorage w !! "refresh_token") = None →
  this_api (S fuel) w config
  = ({| localStorage := ∅; pathname := "/login";
        history := history w ++ [ApiSent sent; Navigated "/login"] |},
     Rejected {| error_config := set_retry true sent;
                 error_response := error_response (status_error sent 401 body);
                 message := message (status_error sent 401 body) |}).
Proof.
  intros Hretry sent Hreply Htoken.
  exact (api_401_no_refresh_token fuel w config body Hretry Hreply Htoken).
Qed.

(** What the code does when the refresh call fails (any status outside
    [200, 300), or no response): both session entries are removed, the
    caller gets the refresh error, the request is not resent, and the client
    navigates to /login unless /login occurs somewhere in the current
    path. *)
Lemma refresh_failure_clears_session (fuel : nat) (w : World)
    (config : Config) (body : Json) (refreshToken : string) :
  _retry config = false →
  let sent := request_interceptor w config in
  network (history w) sent = Answered 401 body →
  truthy (localStorage w !! "refresh_token") = Some refreshToken →
  let reply := network (history w ++ [ApiSent sent]) (refresh refreshToken) in
  failed reply →
  let on_login_page := includes (pathname w) "/login" in
  ∃ refreshError,
    settle (refresh refreshToken) reply = inl refreshError
    ∧ this_api (S fuel) w config
      = ({| localStorage := delete "refresh_token"
                              (delete "access_token" (localStorage w));
            pathname := if on_login_page then pathname w else "/login";
            history := history w
                       ++ [ApiSent sent; RefreshPosted (refresh refreshToken)]
                       ++ (if on_login_page then [] else [Navigated "/login"]) |},
         Rejected refreshError)
    ∧ localStorage (this_api (S fuel) w config).1 !! "access_token" = None
    ∧ localStorage (this_api (S fuel) w config).1 !! "refresh_token" = None.
Proof.
  intros Hretry sent Hreply Htoken reply Hfailed on_login_page.
  destruct (settle_failed (refresh refreshToken) reply Hfailed)
    as [refreshError Hsettle].
  exists refreshError. split; [done|].
  rewrite (api_401_refresh_failed fuel w config body refreshToken refreshError
             Hretry Hreply Htoken Hsettle).
  fold on_login_page. cbn [fst localStorage].
  repeat split.
  - by destruct on_login_page.
  - rewrite lookup_delete_ne by done. apply lookup_delete_eq.
  - apply lookup_delete_eq.
Qed.


(** C10: the two unrecoverable paths treat storage differently. With no
    refresh token every key of localStorage is cleared; after a failed
    refresh exactly access_token and refresh_token are removed and every
    other key keeps its value. *)
Theorem unrecoverable_401_storage (fuel : nat) (w : World) (config : Config)
    (body : Json) :
  _retry config = false →
  let sent := request_interceptor w config in
  network (history w) sent = Answered 401 body →
  let after := (this_api (S fuel) w config).1 in
  (truthy (localStorage w !! "refresh_token") = None →
   ∀ key, localStorage after !! key = None)
  ∧ (∀ refreshToken,
       truthy (localStorage w !! "refresh_token") = Some refreshToken →
       failed (network (history w ++ [ApiSent sent]) (refresh refreshToken)) →
       localStorage after !! "access_token" = None
       ∧ localStorage after !! "refresh_token" = None
       ∧ ∀ key, key ≠ "access_token" → key ≠ "refresh_token" →
                localStorage after !! key = localStorage w !! key).
Proof.
  intros Hretry sent Hreply after. subst after. split.
  - intros Htoken key.
    rewrite (api_401_no_refresh_token fuel w config body Hretry Hreply Htoken).
    apply lookup_empty.
  - intros refreshToken Htoken Hfailed.
    destruct (settle_failed (refresh refreshToken) _ Hfailed)
      as [refreshError Hsettle].
    rewrite (api_401_refresh_failed fuel w config body refreshToken refreshError
               Hretry Hreply Htoken Hsettle).
    cbn [fst localStorage]. repeat split.
    + rewrite lookup_delete_ne by done. apply lookup_delete_eq.
    + apply lookup_delete_eq.
    + intros key Ha Hr. by rewrite !lookup_delete_ne.
Qed.

End ApiServiceProperties.

(** ** The API service on the scenarios *)

(** Scenario: an expired access token, refreshed and resent once. *)
Lemma refresh_then_single_resend_witness :
  let sent := bearer "a1" get_documents in
  let posted := refresh_request None "r1" in
  let resent := bearer "a2" (set_retry true sent) in
  _retry get_documents = false
  ∧ demo_network [] sent = Answered 401 ∅
  ∧ truthy (localStorage world_expired !! "refresh_token") = Some "r1"
  ∧ demo_network [ApiSent sent] posted = Answered 200 {[ "access_token" := "a2" ]}
  ∧ demo_api 2 world_expired get_documents
    = ({| localStorage := {[ "access_token" := "a2"; "refresh_token" := "r1";
                             "sidebar" := "collapsed" ]};
          pathname := "/documents";
          history := [ApiSent sent; RefreshPosted posted; ApiSent resent] |},
       Fulfilled {| status := 200; response_data := ∅; response_config := resent |}).
Proof.
  cbn zeta.
  assert (_retry get_documents = false) as H1 by reflexivity.
  assert (demo_network (history world_expired)
            (request_interceptor world_expired get_documents)
          = Answered 401 ∅) as H2 by (vm_compute; reflexivity).
  assert (truthy (localStorage world_expired !! "refresh_token") = Some "r1") as H3
    by (vm_compute; reflexivity).
  assert (demo_network
            (history world_expired
             ++ [ApiSent (request_interceptor world_expired get_documents)])
            (refresh_request None "r1")
          = Answered 200 {[ "access_token" := "a2" ]}) as H4
    by (vm_compute; reflexivity).
  assert (validateStatus 200 = true) as H5 by reflexivity.
  assert (({[ "access_token" := "a2" ]} : Json) !! "access_token" = Some "a2") as H6
    by (vm_compute; reflexivity).
  split; [exact H1|]. split; [vm_compute; reflexivity|].
  split; [exact H3|]. split; [vm_compute; reflexivity|].
  unfold demo_api.
  rewrite (proj1 (refresh_then_single_resend None demo_network
                    0 world_expired get_documents ∅ "r1" 200
                    {[ "access_token" := "a2" ]} "a2" H1 H2 H3 H4 H5 H6)).
  vm_compute. reflexivity.
Defined.

(** Scenario: a flagged request that gets a 401 again. *)
Lemma second_401_not_retried_witness :
  let retried := set_retry true (bearer "a1" get_documents) in
  _retry retried = true
  ∧ demo_network [] retried = Answered 401 ∅
  ∧ demo_api 1 world_expired retried
    = ({| localStorage := localStorage world_expired; pathname := "/documents";
          history := [ApiSent retried] |},
       Rejected (status_error retried 401 ∅)).
Proof.
  cbn zeta.
  assert (_retry (set_retry true (bearer "a1" get_documents)) = true) as H1
    by reflexivity.
  assert (demo_network (history world_expired)
            (request_interceptor world_expired
               (set_retry true (bearer "a1" get_documents)))
          = Answered 401 ∅) as H2 by (vm_compute; reflexivity).
  split; [exact H1|]. split; [vm_compute; reflexivity|].
  unfold demo_api.
  rewrite (second_401_not_retried None demo_network
             0 world_expired _ ∅ H1 H2).
  vm_compute. reflexivity.
Defined.

(** Scenario C: an access token only, and a 401. *)
Lemma unauthorized_without_refresh_token_witness :
  let sent := bearer "a1" get_documents in
  _retry get_documents = false
  ∧ demo_network [] sent = Answered 401 ∅
  ∧ truthy (localStorage world_access_only !! "refresh_token") = None
  ∧ demo_api 1 world_access_only get_documents
    = ({| localStorage := ∅; pathname := "/login";
          history := [ApiSent sent; Navigated "/login"] |},
       Rejected {| error_config := set_retry true sent;
                   error_response := Some {| status := 401; response_data := ∅;
                                             response_config := sent |};
                   message := "Request failed with status code 401" |}).
Proof.
  cbn zeta.
  assert (_retry get_documents = false) as H1 by reflexivity.
  assert (demo_network (history world_access_only)
            (request_interceptor world_access_only get_documents)
          = Answered 401 ∅) as H2 by (vm_compute; reflexivity).
  assert (truthy (localStorage world_access_only !! "refresh_token") = None) as H3
    by (vm_compute; reflexivity).
  split; [exact H1|]. split; [vm_compute; reflexivity|]. split; [exact H3|].
  unfold demo_api.
  rewrite (unauthorized_without_refresh_token None demo_network
             0 world_access_only get_documents ∅ H1 H2 H3).
  vm_compute. reflexivity.
Defined.

(** Scenario: the backend rejects the refresh token, away from the login
    page and on it. *)
Lemma refresh_failure_clears_session_witness :
  let sent := bearer "a1" get_documents in
  let posted := refresh_request None "r0" in
  _retry get_documents = false
  ∧ demo_network [] sent = Answered 401 ∅
  ∧ truthy (localStorage world_stale !! "refresh_token") = Some "r0"
  ∧ failed (demo_network [ApiSent sent] posted)
  ∧ demo_api 1 world_stale get_documents
    = ({| localStorage := {[ "sidebar" := "collapsed" ]};
          pathname := "/login";
          history := [ApiSent sent; RefreshPosted posted; Navigated "/login"] |},
       Rejected refresh_rejection)
  ∧ demo_api 1 world_stale_login get_documents
    = ({| localStorage := {[ "sidebar" := "collapsed" ]};
          pathname := "/login";
          history := [ApiSent sent; RefreshPosted posted] |},
       Rejected refresh_rejection).
Proof.
  cbn zeta.
  assert (_retry get_documents = false) as H1 by reflexivity.
  assert (∀ w, w = world_stale ∨ w = world_stale_login →
            demo_network (history w) (request_interceptor w get_documents)
            = Answered 401 ∅) as H2
    by (intros w [-> | ->]; vm_compute; reflexivity).
  assert (∀ w, w = world_stale ∨ w = world_stale_login →
            truthy (localStorage w !! "refresh_token") = Some "r0") as H3
    by (intros w [-> | ->]; vm_compute; reflexivity).
  assert (∀ w, w = world_stale ∨ w = world_stale_login →
            failed (demo_network
                      (history w ++ [ApiSent (request_interceptor w get_documents)])
                      (refresh_request None "r0"))) as H4
    by (intros w [-> | ->]; vm_compute; reflexivity).
  split; [exact H1|]. split; [vm_compute; reflexivity|].
  split; [apply H3; by left|]. split; [vm_compute; reflexivity|].
  unfold demo_api. split.
  - destruct (refresh_failure_clears_session None demo_network
                0 world_stale get_documents ∅ "r0" H1
                (H2 _ (or_introl eq_refl)) (H3 _ (or_introl eq_refl))
                (H4 _ (or_introl eq_refl)))
      as (refreshError & Hsettle & -> & _).
    vm_compute in Hsettle. injection Hsettle as <-.
    vm_compute. reflexivity.
  - destruct (refresh_failure_clears_session None demo_network
                0 world_stale_login get_documents ∅ "r0" H1
                (H2 _ (or_intror eq_refl)) (H3 _ (or_intror eq_refl))
                (H4 _ (or_intror eq_refl)))
      as (refreshError & Hsettle & -> & _).
    vm_compute in Hsettle. injection Hsettle as <-.
    vm_compute. reflexivity.
Defined.

(** C4 on a chat page whose conversation is named login (the route
    /chat/:conversationId): the refresh fails and both session entries are
    removed, but the client is not redirected and stays at /chat/login,
    which is not the login page: the path contains /login, and that is all
    the code tests. *)
Theorem refresh_failure_stays_on_chat_page :
  let sent := bearer "a1" get_documents in
  let posted := refresh_request None "r0" in
  let result := demo_api 1 world_stale_chat get_documents in
  pathname world_stale_chat = "/chat/login"
  ∧ demo_network [] sent = Answered 401 ∅
  ∧ failed (demo_network [ApiSent sent] posted)
  ∧ result
    = ({| localStorage := {[ "sidebar" := "collapsed" ]};
          pathname := "/chat/login";
          history := [ApiSent sent; RefreshPosted posted] |},
       Rejected refresh_rejection)
  ∧ pathname result.1 ≠ "/login"
  ∧ count is_navigation (history result.1) = 0%nat.
Proof.
  cbn zeta.
  assert (demo_api 1 world_stale_chat get_documents
          = ({| localStorage := {[ "sidebar" := "collapsed" ]};
                pathname := "/chat/login";
                history := [ApiSent (bearer "a1" get_documents);
                            RefreshPosted (refresh_request None "r0")] |},
             Rejected refresh_rejection)) as Hresult
    by (vm_compute; reflexivity).
  split; [reflexivity|]. split; [vm_compute; reflexivity|].
  split; [vm_compute; reflexivity|]. split; [exact Hresult|].
  rewrite Hresult. split; [discriminate | reflexivity].
Qed.

(** Scenario: the key sidebar is wiped with no refresh token, and kept
    when the refresh fails. *)
Lemma unrecoverable_401_storage_witness :
  let sent := bearer "a1" get_documents in
  _retry get_documents = false
  ∧ demo_network [] sent = Answered 401 ∅
  ∧ localStorage world_access_only !! "sidebar" = Some "collapsed"
  ∧ localStorage (demo_api 1 world_access_only get_documents).1 !! "sidebar" = None
  ∧ localStorage (demo_api 1 world_stale get_documents).1 !! "access_token" = None
  ∧ localStorage (demo_api 1 world_stale get_documents).1 !! "refresh_token" = None
  ∧ localStorage (demo_api 1 world_stale get_documents).1 !! "sidebar"
    = Some "collapsed".
Proof.
  cbn zeta.
  assert (_retry get_documents = false) as H1 by reflexivity.
  assert (∀ w, w = world_access_only ∨ w = world_stale →
            demo_network (history w) (request_interceptor w get_documents)
            = Answered 401 ∅) as H2
    by (intros w [-> | ->]; vm_compute; reflexivity).
  split; [exact H1|]. split; [vm_compute; reflexivity|].
  split; [vm_compute; reflexivity|].
  unfold demo_api.
  destruct (unrecoverable_401_storage None demo_network
              0 world_access_only get_documents ∅ H1 (H2 _ (or_introl eq_refl)))
    as [Hclear _].
  destruct (unrecoverable_401_storage None demo_network
              0 world_stale get_documents ∅ H1 (H2 _ (or_intror eq_refl)))
    as [_ Hremove].
  split; [apply Hclear; vm_compute; reflexivity|].
  destruct (Hremove "r0") as (Ha & Hr & Hother);
    [vm_compute; reflexivity | vm_compute; reflexivity |].
  split; [exact Ha|]. split; [exact Hr|].
  rewrite Hother by done. vm_compute. reflexivity.
Defined.




(** * Further properties

    Properties of the code around the claims: the rest of the colour
    helpers and of applyTheme, every path of a request, the methods of the
    service that the authentication context calls, and that context. *)

(** ** hexToRgb *)

Lemma hex_pattern_exec_six (c1 c2 c3 c4 c5 c6 : ascii) :
  forallb is_hex [c1; c2; c3; c4; c5; c6] = true →
  hexToRgb (String c1 (String c2 (String c3 (String c4 (String c5 (String c6 EmptyString))))))
  = Some {| r := parseInt16 (String c1 (String c2 EmptyString));
            g := parseInt16 (String c3 (String c4 EmptyString));
            b := parseInt16 (String c5 (String c6 EmptyString)) |}.
Proof.
  intros Hhex. unfold hexToRgb, hex_pattern_exec.
  assert (skip_optional_hash
            (String c1 (String c2 (String c3 (String c4 (String c5 (String c6 EmptyString))))))
          = String c1 (String c2 (String c3 (String c4 (String c5 (String c6 EmptyString))))))
    as ->.
  { cbn [forallb] in Hhex. apply andb_prop in Hhex as [H1 _].
    unfold skip_optional_hash.
    destruct c1 as [[] [] [] [] [] [] [] []]; try reflexivity.
    vm_compute in H1. discriminate. }
  by rewrite Hhex.
Qed.

Lemma six_hex_digits_inv (s : string) :
  six_hex_digits s →
  ∃ c1 c2 c3 c4 c5 c6,
    s = String c1 (String c2 (String c3 (String c4 (String c5 (String c6 EmptyString)))))
    ∧ forallb is_hex [c1; c2; c3; c4; c5; c6] = true.
Proof.
  intros [Hlen Hhex].
  destruct s as [|c1 [|c2 [|c3 [|c4 [|c5 [|c6 [|]]]]]]]; try discriminate.
  by exists c1, c2, c3, c4, c5, c6.
Qed.

(** X1: hexToRgb accepts exactly the strings of six hexadecimal digits,
    with or without one leading #; everything else (a 3-digit shorthand, a
    colour name, a second #, trailing characters) is rejected. *)
Theorem hexToRgb_accepts_iff (hex : string) :
  is_Some (hexToRgb hex)
  ↔ six_hex_digits hex ∨ ∃ s, hex = String "#"%char s ∧ six_hex_digits s.
Proof.
  split.
  - intros [rgb Hrgb]. unfold hexToRgb, hex_pattern_exec in Hrgb.
    assert (skip_optional_hash hex = hex
            ∨ hex = String "#"%char (skip_optional_hash hex)) as Hskip.
    { unfold skip_optional_hash. destruct hex as [|c s]; [by left|].
      destruct c as [[] [] [] [] [] [] [] []]; (by left) || (by right). }
    destruct (skip_optional_hash hex)
      as [|c1 [|c2 [|c3 [|c4 [|c5 [|c6 [|]]]]]]] eqn:Hbody; try discriminate.
    destruct (forallb is_hex _) eqn:Hhex; [|discriminate].
    destruct Hskip as [<- | ->].
    + left. by split.
    + right. eexists. split; [reflexivity|]. by split.
  - intros [Hsix | (s & -> & Hsix)].
    + destruct (six_hex_digits_inv _ Hsix) as (c1 & c2 & c3 & c4 & c5 & c6 & -> & Hhex).
      rewrite hex_pattern_exec_six by done. by eexists.
    + destruct (six_hex_digits_inv _ Hsix) as (c1 & c2 & c3 & c4 & c5 & c6 & -> & Hhex).
      unfold hexToRgb, hex_pattern_exec. cbn [skip_optional_hash].
      rewrite Hhex. by eexists.
Qed.

Lemma parseInt16_hex_pair (c1 c2 : ascii) (n : Z) :
  hex_pair c1 c2 = Some n →
  parseInt16 (String c1 (String c2 EmptyString)) = of_Z n ∧ 0 ≤ n ≤ 255.
Proof.
  unfold hex_pair, parseInt16. cbn [parse_hex_prefix].
  destruct (hex_digit c1) as [d1|] eqn:H1; [|discriminate].
  destruct (hex_digit c2) as [d2|] eqn:H2; [|discriminate].
  intros [= <-]. apply hex_digit_range in H1, H2. cbn [default].
  split; [f_equal|]; lia.
Qed.

Lemma is_hex_pair (c1 c2 : ascii) :
  is_hex c1 = true → is_hex c2 = true → is_Some (hex_pair c1 c2).
Proof.
  unfold is_hex, hex_pair.
  destruct (hex_digit c1), (hex_digit c2); try discriminate. by eexists.
Qed.

(** X2: a colour of six hexadecimal digits parses the same with and without
    the leading #, and each channel is 16 times its first digit plus its
    second. *)
Theorem hexToRgb_channel_values (c1 c2 c3 c4 c5 c6 : ascii) :
  forallb is_hex [c1; c2; c3; c4; c5; c6] = true →
  let s := String c1 (String c2 (String c3 (String c4 (String c5 (String c6 EmptyString))))) in
  hexToRgb (String "#"%char s) = hexToRgb s
  ∧ ∃ rgb R G B,
      hexToRgb s = Some rgb
      ∧ hex_pair c1 c2 = Some R ∧ hex_pair c3 c4 = Some G ∧ hex_pair c5 c6 = Some B
      ∧ to_Z (r rgb) = Some R ∧ to_Z (g rgb) = Some G ∧ to_Z (b rgb) = Some B.
Proof.
  intros Hhex s. subst s. split.
  - rewrite hex_pattern_exec_six by done.
    unfold hexToRgb, hex_pattern_exec. cbn [skip_optional_hash]. by rewrite Hhex.
  - rewrite hex_pattern_exec_six by done.
    cbn [forallb] in Hhex. repeat (apply andb_prop in Hhex as [? Hhex]).
    destruct (is_hex_pair c1 c2) as [R HR]; [done..|].
    destruct (is_hex_pair c3 c4) as [G HG]; [done..|].
    destruct (is_hex_pair c5 c6) as [B HB]; [done..|].
    destruct (parseInt16_hex_pair _ _ _ HR) as [-> ?].
    destruct (parseInt16_hex_pair _ _ _ HG) as [-> ?].
    destruct (parseInt16_hex_pair _ _ _ HB) as [-> ?].
    eexists _, R, G, B. split; [reflexivity|]. cbn [r g b].
    rewrite !to_Z_of_Z_channel by done. done.
Qed.

Lemma hexToRgb_channel_values_witness :
  forallb is_hex ["0"; "E"; "a"; "5"; "e"; "9"]%char = true
  ∧ hexToRgb "#0Ea5e9" = hexToRgb "0Ea5e9"
  ∧ ∃ rgb, hexToRgb "0Ea5e9" = Some rgb
           ∧ to_Z (r rgb) = Some 14 ∧ to_Z (g rgb) = Some 165 ∧ to_Z (b rgb) = Some 233.
Proof.
  assert (forallb is_hex ["0"; "E"; "a"; "5"; "e"; "9"]%char = true) as Hhex
    by reflexivity.
  split; [exact Hhex|].
  destruct (hexToRgb_channel_values "0" "E" "a" "5" "e" "9" Hhex)
    as (Hsame & rgb & R & G & B & Hrgb & HR & HG & HB & Hr & Hg & Hb).
  split; [exact Hsame|].
  exists rgb. split; [exact Hrgb|].
  vm_compute in HR, HG, HB. injection HR as <-. injection HG as <-. injection HB as <-.
  done.
Defined.

(** ** The shade ramp *)

Lemma shade_channel_range (sh : Shade) (c : Z) :
  In sh shades → 0 ≤ c ≤ 255 →
  ∃ v, shade_channel sh c = Some v ∧ 0 ≤ v ≤ 255.
Proof.
  intros Hsh Hc.
  destruct (channel_ok_inv sh c (channel_ok_all sh c Hsh Hc))
    as (_ & v & _ & _ & Hv & _ & Hrange).
  by exists v.
Qed.

(** X3: for a colour that parses, generateColorShades leaves in each of the
    ten ramp variables the text rgb(R, G, B) with decimal integers between
    0 and 255, which are the channels adjustLightness derives; at level 500
    they are the channels of the colour itself. *)
Theorem generateColorShades_ramp_text (engine : StyleEngine)
    (baseColor name : string) (rgb : RGB) (doc : Document) (sh : Shade) :
  hexToRgb baseColor = Some rgb → In name ramp_names → In sh shades →
  ∃ R G B,
    (0 ≤ R ≤ 255) ∧ (0 ≤ G ≤ 255) ∧ (0 ≤ B ≤ 255)
    ∧ to_Z (r (adjustLightness rgb (lightness sh))) = Some R
    ∧ to_Z (g (adjustLightness rgb (lightness sh))) = Some G
    ∧ to_Z (b (adjustLightness rgb (lightness sh))) = Some B
    ∧ root_style (generateColorShades engine baseColor name doc)
        !! ("--color-" ++ name ++ "-" ++ shade_name sh)
      = Some (rgb_text R G B)
    ∧ (shade_name sh = "500" →
       to_Z (r rgb) = Some R ∧ to_Z (g rgb) = Some G ∧ to_Z (b rgb) = Some B).
Proof.
  intros Hparse Hname Hsh.
  destruct (ramp_value_text baseColor rgb sh Hparse Hsh)
    as (R & G & B & HRr & HGr & HBr & HR & HG & HB & Htext).
  exists R, G, B. do 6 (split; [done|]). split.
  - rewrite generateColorShades_style, foldl_write_lookup.
    rewrite last_effect_plain by apply plain_write_weaken, ramp_writes_plain.
    unfold ramp_writes. rewrite Hparse.
    change ("--color-" ++ name ++ "-" ++ shade_name sh) with (ramp_variable name sh).
    rewrite (last_write_map (ramp_variable name) _ shades sh)
      by (done || by apply ramp_variable_NoDup).
    cbn [option_map]. by rewrite Htext.
  - intros H500.
    destruct (hexToRgb_channels _ _ Hparse) as (R0 & G0 & B0 & HR0 & HG0 & HB0 & ->).
    rewrite adjustLightness_channels in HR, HG, HB. cbn [r g b] in *.
    destruct (channel_ok_inv sh R0 (channel_ok_all sh R0 Hsh HR0))
      as (fr & R' & Hfr & _ & HR' & HRv & _).
    destruct (channel_ok_inv sh G0 (channel_ok_all sh G0 Hsh HG0))
      as (fg & G' & Hfg & _ & HG' & HGv & _).
    destruct (channel_ok_inv sh B0 (channel_ok_all sh B0 Hsh HB0))
      as (fb & B' & Hfb & _ & HB' & HBv & _).
    rewrite HR in HR'. rewrite HG in HG'. rewrite HB in HB'.
    injection HR' as <-. injection HG' as <-. injection HB' as <-.
    rewrite !to_Z_of_Z_channel by done.
    rewrite H500 in *.
    vm_compute in Hfr, Hfg, Hfb.
    injection Hfr as <-. injection Hfg as <-. injection Hfb as <-.
    change (binary64_shortfall "500" ?c) with 0 in *.
    change (spec_shade_channel ?c 0) with c in *.
    repeat split; f_equal; lia.
Qed.

Lemma generateColorShades_ramp_text_witness :
  hexToRgb "#0ea5e9" = Some (mkRGB 14 165 233)
  ∧ In "primary" ramp_names
  ∧ In (mkShade "500" 0) shades ∧ In (mkShade "800" (-0.3)) shades
  ∧ root_style (generateColorShades keeping_engine "#0ea5e9" "primary" empty_document)
      !! "--color-primary-500" = Some "rgb(14, 165, 233)"
  ∧ root_style (generateColorShades keeping_engine "#0ea5e9" "primary" empty_document)
      !! "--color-primary-800" = Some "rgb(10, 115, 163)".
Proof.
  assert (hexToRgb "#0ea5e9" = Some (mkRGB 14 165 233)) as Hparse
    by (vm_compute; reflexivity).
  assert (In "primary" ramp_names) as Hname by (left; reflexivity).
  assert (In (mkShade "500" 0) shades) as H500
    by (do 5 right; left; reflexivity).
  assert (In (mkShade "800" (-0.3)) shades) as H800
    by (do 8 right; left; reflexivity).
  do 4 (split; [done|]). split.
  - destruct (generateColorShades_ramp_text keeping_engine "#0ea5e9" "primary" _
                empty_document (mkShade "500" 0) Hparse Hname H500)
      as (R & G & B & _ & _ & _ & HR & HG & HB & Htext & _).
    vm_compute in HR, HG, HB.
    injection HR as <-. injection HG as <-. injection HB as <-.
    exact Htext.
  - destruct (generateColorShades_ramp_text keeping_engine "#0ea5e9" "primary" _
                empty_document (mkShade "800" (-0.3)) Hparse Hname H800)
      as (R & G & B & _ & _ & _ & HR & HG & HB & Htext & _).
    vm_compute in HR, HG, HB.
    injection HR as <-. injection HG as <-. injection HB as <-.
    exact Htext.
Defined.

Lemma shades_order_checked :
  forallb (λ c, let outs := (λ sh, shade_channel sh c) <$> shades in
                forallb (λ i, forallb (λ j,
                  match outs !! i, outs !! j with
                  | Some lighter, Some darker =>
                      (j <? i)%nat || option_Z_le darker lighter
                  | _, _ => true
                  end) (seq 0 10)) (seq 0 10)) channel_values = true.
Proof. vm_compute. reflexivity. Qed.

(** X4: along the table, from level 50 to level 900, every channel only
    gets darker: a row never yields a larger value than a row above it.
    With level 500 giving the channel itself, the five rows above it never
    darken and the four rows below it never lighten. *)
Theorem shades_ordered (c : Z) (green blue : Number) (i j : nat)
    (lighter darker : Shade) :
  0 ≤ c ≤ 255 → (i ≤ j)%nat →
  shades !! i = Some lighter → shades !! j = Some darker →
  ∃ v w,
    to_Z (r (adjustLightness (mkRGB (of_Z c) green blue) (lightness lighter))) = Some v
    ∧ to_Z (r (adjustLightness (mkRGB (of_Z c) green blue) (lightness darker))) = Some w
    ∧ w ≤ v
    ∧ (i = 5%nat → v = c) ∧ (j = 5%nat → w = c).
Proof.
  intros Hc Hij Hi Hj.
  pose proof shades_order_checked as H.
  rewrite forallb_forall in H. specialize (H c (channel_values_complete c Hc)).
  cbn zeta in H.
  assert (i < 10 ∧ j < 10)%nat as [Hi10 Hj10].
  { apply lookup_lt_Some in Hi, Hj. cbn in Hi, Hj. lia. }
  rewrite forallb_forall in H. specialize (H i). rewrite in_seq in H.
  specialize (H ltac:(lia)).
  rewrite forallb_forall in H. specialize (H j). rewrite in_seq in H.
  specialize (H ltac:(lia)).
  rewrite !list_lookup_fmap, Hi, Hj in H. cbn [fmap option_fmap option_map] in H.
  assert (In lighter shades) as Hl by (rewrite <- list_elem_of_In; by eapply list_elem_of_lookup_2).
  assert (In darker shades) as Hd by (rewrite <- list_elem_of_In; by eapply list_elem_of_lookup_2).
  destruct (channel_ok_inv lighter c (channel_ok_all lighter c Hl Hc))
    as (fl & v & Hfl & _ & Hv & Hvv & _).
  destruct (channel_ok_inv darker c (channel_ok_all darker c Hd Hc))
    as (fd & w & Hfd & _ & Hw & Hwv & _).
  exists v, w. rewrite !adjustLightness_channels. cbn [r].
  unfold shade_channel in *. rewrite Hv, Hw in H. cbn [option_Z_le] in H.
  do 2 (split; [done|]). split.
  - clear - H Hij.
    apply orb_prop in H as [H | H]; [apply Nat.ltb_lt in H; lia | by apply Z.leb_le in H].
  - split; intros ->.
    + cbn in Hi. injection Hi as <-. vm_compute in Hfl. injection Hfl as <-.
      cbn [shade_name] in *.
      change (binary64_shortfall "500" ?c) with 0 in *.
      change (spec_shade_channel ?c 0) with c in *. lia.
    + cbn in Hj. injection Hj as <-. vm_compute in Hfd. injection Hfd as <-.
      cbn [shade_name] in *.
      change (binary64_shortfall "500" ?c) with 0 in *.
      change (spec_shade_channel ?c 0) with c in *. lia.
Qed.

(** The theorem at channel 200, levels 200 and 700. *)
Lemma shades_ordered_witness :
  0 ≤ 200 ≤ 255 ∧ (2 ≤ 7)%nat
  ∧ shades !! 2%nat = Some (mkShade "200" 0.8)
  ∧ shades !! 7%nat = Some (mkShade "700" (-0.2))
  ∧ to_Z (r (adjustLightness (mkRGB 200 0 0) 0.8)) = Some 244
  ∧ to_Z (r (adjustLightness (mkRGB 200 0 0) (-0.2))) = Some 160.
Proof.
  assert (0 ≤ 200 ≤ 255) as Hc by lia.
  assert (2 ≤ 7)%nat as Hij by lia.
  assert (shades !! 2%nat = Some (mkShade "200" 0.8)) as Hi by reflexivity.
  assert (shades !! 7%nat = Some (mkShade "700" (-0.2))) as Hj by reflexivity.
  do 4 (split; [done|]).
  destruct (shades_ordered 200 0%float 0%float 2 7 _ _ Hc Hij Hi Hj) as (v & w & Hv & Hw & _).
  change (of_Z 200) with 200%float in Hv, Hw. cbn [lightness] in Hv, Hw.
  rewrite Hv, Hw. vm_compute in Hv, Hw.
  injection Hv as <-. injection Hw as <-. done.
Defined.

Lemma shade_rows_monotone_checked :
  forallb (λ sh, let row := shade_row sh in
                 forallb (λ p1, forallb (λ p2,
                   (p2.1 <? p1.1) || option_Z_le p1.2 p2.2) row) row)
    shades = true.
Proof. vm_compute. reflexivity. Qed.

(** X5: every row of the table is monotone in the channel: of two input
    channels the larger never comes out smaller, so a shade keeps the order
    of the channels of its colour. *)
Theorem adjustLightness_monotone (R G B : Z) (sh : Shade) :
  0 ≤ R ≤ 255 → 0 ≤ G ≤ 255 → 0 ≤ B ≤ 255 → In sh shades → R ≤ G →
  let out := adjustLightness (mkRGB (of_Z R) (of_Z G) (of_Z B)) (lightness sh) in
  ∃ R' G', to_Z (r out) = Some R' ∧ to_Z (g out) = Some G' ∧ R' ≤ G'.
Proof.
  intros HR HG HB Hsh HRG out. subst out.
  rewrite adjustLightness_channels. cbn [r g].
  pose proof shade_rows_monotone_checked as H.
  rewrite forallb_forall in H. specialize (H sh Hsh). cbn zeta in H.
  rewrite forallb_forall in H.
  specialize (H (R, shade_channel sh R)
                (in_map _ _ _ (channel_values_complete R HR))).
  rewrite forallb_forall in H.
  specialize (H (G, shade_channel sh G)
                (in_map _ _ _ (channel_values_complete G HG))).
  cbn [fst snd] in H.
  destruct (shade_channel_range sh R Hsh HR) as (R' & HR' & _).
  destruct (shade_channel_range sh G Hsh HG) as (G' & HG' & _).
  rewrite HR', HG' in H. unfold shade_channel in HR', HG'.
  exists R', G'. do 2 (split; [done|]).
  apply orb_prop in H as [H | H]; cbn [option_Z_le] in H;
    [apply Z.ltb_lt in H | apply Z.leb_le in H]; lia.
Qed.

(** The theorem at #0EA5E9 and level 300. *)
Lemma adjustLightness_monotone_witness :
  0 ≤ 14 ≤ 255 ∧ 0 ≤ 165 ≤ 255 ∧ 0 ≤ 233 ≤ 255
  ∧ In (mkShade "300" 0.6) shades ∧ 14 ≤ 165
  ∧ ∃ R' G',
      to_Z (r (adjustLightness (mkRGB (of_Z 14) (of_Z 165) (of_Z 233)) 0.6)) = Some R'
      ∧ to_Z (g (adjustLightness (mkRGB (of_Z 14) (of_Z 165) (of_Z 233)) 0.6)) = Some G'
      ∧ R' ≤ G'.
Proof.
  assert (In (mkShade "300" 0.6) shades) as Hsh by (do 3 right; left; reflexivity).
  repeat split; try lia; try exact Hsh.
  apply (adjustLightness_monotone 14 165 233 (mkShade "300" 0.6)); (lia || exact Hsh).
Defined.

(** X6: generateColorShades writes the ten variables --color-<name>-<level>
    and nothing else: every other style variable, the body font, the icon
    link and the title are untouched, and a colour that does not parse
    leaves the whole document as it was. *)
Theorem generateColorShades_frame (engine : StyleEngine) (baseColor name : string)
    (doc : Document) :
  let doc' := generateColorShades engine baseColor name doc in
  body_fontFamily doc' = body_fontFamily doc
  ∧ icon_link doc' = icon_link doc
  ∧ title doc' = title doc
  ∧ (∀ k, ¬ In k (map (λ sh, "--color-" ++ name ++ "-" ++ shade_name sh) shades) →
          root_style doc' !! k = root_style doc !! k)
  ∧ (hexToRgb baseColor = None → doc' = doc).
Proof.
  cbn zeta.
  destruct (generateColorShades_fields engine baseColor name doc) as (Hb & Hi & Ht).
  do 3 (split; [done|]). split.
  - intros k Hk. rewrite generateColorShades_style, foldl_write_lookup.
    rewrite last_effect_not_key; [done|].
    intros Hin. by apply ramp_writes_keys in Hin.
  - intros Hnone. unfold generateColorShades. by rewrite Hnone.
Qed.

(** ** applyTheme as a whole *)

Lemma truthy_Some (s : option string) (v : string) :
  truthy s = Some v → s = Some v ∧ v ≠ "".
Proof. destruct s as [[|c s]|]; cbn; intros H; by simplify_eq. Qed.

Section WholeTheme.

Variable engine : StyleEngine.
Variable E : Type.
Variable TypeError : E.

Local Abbreviation apply_theme env := (applyTheme engine env E TypeError).

Lemma setProperty_body (name value : string) (doc : Document) :
  body_fontFamily (setProperty engine name value doc) = body_fontFamily doc.
Proof. apply setProperty_fields. Qed.

Lemma setProperty_icon (name value : string) (doc : Document) :
  icon_link (setProperty engine name value doc) = icon_link doc.
Proof. apply setProperty_fields. Qed.

Lemma setProperty_title (name value : string) (doc : Document) :
  title (setProperty engine name value doc) = title doc.
Proof. apply setProperty_fields. Qed.

Lemma set_body_fontFamily_fields (family : string) (doc : Document) :
  family ≠ "" →
  body_fontFamily (set_body_fontFamily engine family doc)
  = body_font_after engine family (body_fontFamily doc)
  ∧ icon_link (set_body_fontFamily engine family doc) = icon_link doc
  ∧ title (set_body_fontFamily engine family doc) = title doc.
Proof.
  intros Hne. unfold set_body_fontFamily, body_font_after.
  destruct family; [done|]. by destruct (parse_value engine "font-family" _).
Qed.

Lemma typography_stage_fields (t : option CustomizationTypography) (doc : Document) :
  body_fontFamily (typography_stage engine t doc)
  = match t with
    | Some t => match truthy (font_family t) with
                | Some family => body_font_after engine family (body_fontFamily doc)
                | None => body_fontFamily doc
                end
    | None => body_fontFamily doc
    end
  ∧ icon_link (typography_stage engine t doc) = icon_link doc
  ∧ title (typography_stage engine t doc) = title doc.
Proof.
  unfold typography_stage. destruct t as [t|]; [|done].
  rewrite !setProperty_body, !setProperty_icon, !setProperty_title.
  destruct (truthy (font_family t)) as [family|] eqn:Hfamily; [|done].
  apply truthy_Some in Hfamily as [_ Hne].
  destruct (set_body_fontFamily_fields family
              (setProperty engine "--font-family" family doc) Hne) as (-> & -> & ->).
  by rewrite setProperty_body, setProperty_icon, setProperty_title.
Qed.

Lemma tailwind_stage_fields (cs : CustomizationColors) (doc : Document) :
  body_fontFamily (tailwind_stage engine cs doc) = body_fontFamily doc
  ∧ icon_link (tailwind_stage engine cs doc) = icon_link doc
  ∧ title (tailwind_stage engine cs doc) = title doc.
Proof.
  unfold tailwind_stage. destruct (hexToRgb (primary cs)); [|done].
  repeat match goal with
         | |- context [generateColorShades engine ?x ?n ?d] =>
             destruct (generateColorShades_fields engine x n d) as (-> & -> & ->)
         end.
  apply setProperty_fields.
Qed.

(** The body font, the icon link and the title after applyTheme. *)
Lemma applyTheme_fields (env : option string) (c : Customization) (doc : Document) :
  body_fontFamily (apply_theme env c doc).2
  = match colors c, typography c with
    | Some _, Some t => match truthy (font_family t) with
                        | Some family => body_font_after engine family (body_fontFamily doc)
                        | None => body_fontFamily doc
                        end
    | _, _ => body_fontFamily doc
    end
  ∧ icon_link (apply_theme env c doc).2
    = match colors c, truthy (favicon_url c) with
      | Some _, Some url => Some (getFullImageUrl env (Some url))
      | _, _ => icon_link doc
      end
  ∧ title (apply_theme env c doc).2
    = match colors c, branding c with
      | Some _, Some bs => match truthy (app_name bs) with
                           | Some name => strip_and_collapse name
                           | None => title doc
                           end
      | _, _ => title doc
      end.
Proof.
  assert (∀ url, truthy (favicon_url c) = Some url →
                 getFullImageUrl env (Some url)
                 = if startsWith url "http" then url
                   else default "http://localhost:8000" (truthy env) ++ url) as Hurl.
  { intros url Hurl. unfold getFullImageUrl.
    assert (truthy (Some url) = Some url) as ->; [|done].
    apply truthy_Some in Hurl as [_ Hne]. by destruct url. }
  rewrite applyTheme_stages.
  destruct (colors c) as [cs|]; [|by destruct (typography c)].
  destruct (set_all_fields engine (color_writes cs) doc) as (_ & Hb1 & Hi1 & Ht1).
  destruct (typography_stage_fields (typography c)
              (set_all engine (color_writes cs) doc)) as (Hb2 & Hi2 & Ht2).
  destruct (set_all_fields engine (layout_writes (layout c))
              (typography_stage engine (typography c)
                 (set_all engine (color_writes cs) doc))) as (_ & Hb3 & Hi3 & Ht3).
  destruct (tailwind_stage_fields cs
              (set_all engine (layout_writes (layout c))
                 (typography_stage engine (typography c)
                    (set_all engine (color_writes cs) doc)))) as (Hb4 & Hi4 & Ht4).
  rewrite Hb3, Hb2, Hb1 in Hb4. rewrite Hi3, Hi2, Hi1 in Hi4.
  rewrite Ht3, Ht2, Ht1 in Ht4.
  unfold title_stage, favicon_stage.
  destruct (truthy (favicon_url c)) as [url|] eqn:Hfav;
    [rewrite (Hurl url eq_refl)|];
    (destruct (branding c) as [bs|]; [destruct (truthy (app_name bs))|]);
    cbn [snd body_fontFamily icon_link title updateFavicon set_title];
    rewrite ?Hb4, ?Hi4, ?Ht4; by destruct (typography c).
Qed.

Lemma Document_eq (d1 d2 : Document) :
  root_style d1 = root_style d2 → body_fontFamily d1 = body_fontFamily d2 →
  icon_link d1 = icon_link d2 → title d1 = title d2 → d1 = d2.
Proof. destruct d1, d2. cbn. by intros -> -> -> ->. Qed.

Lemma body_font_after_twice (family : string) (before : option string) :
  body_font_after engine family (body_font_after engine family before)
  = body_font_after engine family before.
Proof.
  unfold body_font_after. by destruct (parse_value engine "font-family" family).
Qed.

(** X7: applying a record twice is the same as applying it once: the same
    completion, and the same document. *)
Theorem applyTheme_idempotent (env : option string) (c : Customization) (doc : Document) :
  apply_theme env c (apply_theme env c doc).2 = apply_theme env c doc.
Proof.
  destruct (applyTheme_fields env c (apply_theme env c doc).2) as (Hb2 & Hi2 & Ht2).
  destruct (applyTheme_fields env c doc) as (Hb1 & Hi1 & Ht1).
  apply injective_projections; [by rewrite !applyTheme_completion|].
  apply Document_eq.
  - apply map_eq. intros k.
    rewrite !applyTheme_style, !foldl_write_lookup.
    by destruct (last_effect engine k (style_writes c)).
  - rewrite Hb2, Hb1. destruct (colors c); [|done].
    destruct (typography c) as [t|]; [|done].
    destruct (truthy (font_family t)); [|done]. apply body_font_after_twice.
  - rewrite Hi2, Hi1. destruct (colors c); [|done].
    by destruct (truthy (favicon_url c)).
  - rewrite Ht2, Ht1. destruct (colors c); [|done].
    destruct (branding c) as [bs|]; [|done]. by destruct (truthy (app_name bs)).
Qed.

(** X8: applyTheme changes no style variable outside the managed ones. On
    a record without colors it changes nothing at all. On a record with
    colors, the body font changes only when there is a font family, and
    then to what the style engine makes of it (it stays when the engine
    does not take the family as a font family); the icon link changes only
    when there is a favicon, and then to the URL getFullImageUrl resolves;
    the title changes only when there are a branding and an application
    name, and then to the name with its white space stripped and
    collapsed. *)
Theorem applyTheme_changes_only (env : option string) (c : Customization)
    (doc : Document) :
  let doc' := (apply_theme env c doc).2 in
  (∀ k, ¬ In k theme_variables → root_style doc' !! k = root_style doc !! k)
  ∧ (colors c = None → doc' = doc)
  ∧ body_fontFamily doc'
    = match colors c, typography c with
      | Some _, Some t =>
          match truthy (font_family t) with
          | Some family =>
              match parse_value engine "font-family" family with
              | Some text => Some text
              | None => body_fontFamily doc
              end
          | None => body_fontFamily doc
          end
      | _, _ => body_fontFamily doc
      end
  ∧ icon_link doc'
    = match colors c, truthy (favicon_url c) with
      | Some _, Some url => Some (getFullImageUrl env (Some url))
      | _, _ => icon_link doc
      end
  ∧ title doc'
    = match colors c, branding c with
      | Some _, Some bs =>
          match truthy (app_name bs) with
          | Some name => strip_and_collapse name
          | None => title doc
          end
      | _, _ => title doc
      end.
Proof.
  cbn zeta. split; [|split; [|apply applyTheme_fields]].
  - intros k Hk. by apply applyTheme_frame.
  - intros Hnone. unfold applyTheme. by rewrite Hnone.
Qed.

Lemma complete_writes_all (c : Customization) :
  complete engine c → map fst (style_writes c) = theme_variables.
Proof.
  intros (cs & t & bs & Hcs & Ht & _ & [l Hl] & (family & Hf & _) & [p Hp] & [s Hs]
          & [a Ha] & _).
  unfold style_writes, typography_writes, layout_writes, tailwind_writes, ramp_writes.
  rewrite Hcs, Ht, Hf, Hl, Hp, Hs, Ha.
  rewrite !map_app. cbn [map fst]. rewrite !map_app, !map_map. cbn [fst].
  reflexivity.
Qed.

(** X10: a complete record erases every trace of the theme applied before
    it: the document it leaves does not depend on the earlier record. *)
Theorem applyTheme_complete_overwrites (env : option string)
    (earlier c : Customization) (doc : Document) :
  complete engine c →
  apply_theme env c (apply_theme env earlier doc).2 = apply_theme env c doc.
Proof.
  intros Hc.
  pose proof (complete_writes_all c Hc) as Hkeys.
  destruct Hc as (cs & t & bs & Hcs & Ht & Hbs & _ & (family & Hf & _ & [text Htext])
                  & _ & _ & _ & Hall & [u Hu] & [n Hn]).
  destruct (applyTheme_fields env c (apply_theme env earlier doc).2) as (Hb2 & Hi2 & Ht2).
  destruct (applyTheme_fields env c doc) as (Hb1 & Hi1 & Ht1).
  apply injective_projections; [by rewrite !applyTheme_completion|].
  apply Document_eq.
  - apply map_eq. intros k.
    rewrite !applyTheme_style, !foldl_write_lookup.
    destruct (last_effect engine k (style_writes c)) eqn:Hk; [done|].
    rewrite last_effect_not_key; [done|].
    intros Hin. apply style_writes_keys in Hin. rewrite <- Hkeys in Hin.
    apply (last_effect_is_key engine k _ Hall) in Hin. rewrite Hk in Hin.
    by destruct Hin.
  - rewrite Hb2, Hb1, Hcs, Ht, Hf. unfold body_font_after. by rewrite Htext.
  - by rewrite Hi2, Hi1, Hcs, Hu.
  - by rewrite Ht2, Ht1, Hcs, Hbs, Hn.
Qed.

End WholeTheme.

(** The theorem at the brand, applied over the default theme; and why the
    three colours must parse: with the 3-digit shorthand of its accent
    colour, the record leaves the accent ramp of the default theme in
    place. *)
Lemma applyTheme_complete_overwrites_witness :
  let over record :=
    (applyTheme keeping_engine None unit () record
       (applyTheme keeping_engine None unit () (DEFAULT_CUSTOMIZATION "")
          empty_document).2).2 in
  let fresh record :=
    (applyTheme keeping_engine None unit () record empty_document).2 in
  complete keeping_engine customization_acme
  ∧ over customization_acme = fresh customization_acme
  ∧ root_style (over customization_acme_short_accent) !! "--color-accent-900"
    = Some "rgb(83, 55, 148)"
  ∧ root_style (fresh customization_acme_short_accent) !! "--color-accent-900" = None.
Proof.
  cbn zeta.
  assert (complete keeping_engine customization_acme) as Hc.
  { do 3 eexists. do 3 (split; [reflexivity|]).
    split; [by eexists|]. split; [eexists; repeat split; by eexists|].
    do 3 (split; [by eexists|]).
    split; [|split; by eexists].
    apply Forall_forall. intros kv Hkv.
    assert (forallb (λ kv, bool_decide (is_Some (effect keeping_engine kv.1 kv.2)))
              (style_writes customization_acme) = true) as Hall
      by (vm_compute; reflexivity).
    rewrite forallb_forall in Hall.
    specialize (Hall kv (proj1 (list_elem_of_In _ _) Hkv)).
    by apply bool_decide_eq_true in Hall. }
  split; [exact Hc|]. split.
  - exact (f_equal snd
             (applyTheme_complete_overwrites keeping_engine unit () None _ _ _ Hc)).
  - split; vm_compute; reflexivity.
Defined.
Lemma prefix_app (p s x : string) :
  String.prefix p s = true → String.prefix p (s ++ x) = true.
Proof.
  revert s. induction p as [|a p IH]; intros s.
  - intros _. by destruct (s ++ x).
  - destruct s as [|b s]; [done|]. simpl.
    destruct (ascii_dec a b); [apply IH | done].
Qed.

(** X9: when the API base is an absolute URL, getFullImageUrl returns the
    empty string or an absolute URL, and resolving its result again changes
    nothing. *)
Theorem getFullImageUrl_idempotent (env : option string) (path : option string) :
  startsWith (default "http://localhost:8000" (truthy env)) "http" = true →
  let url := getFullImageUrl env path in
  (url = "" ∨ startsWith url "http" = true)
  ∧ getFullImageUrl env (Some url) = url
  ∧ (truthy path = None → url = "").
Proof.
  intros Hbase url.
  assert (url = "" ∨ startsWith url "http" = true) as Hurl.
  { subst url. unfold getFullImageUrl.
    destruct (truthy path) as [p|]; [|by left].
    right. destruct (startsWith p "http") eqn:Hhttp; [done|]. by apply prefix_app. }
  split; [done|]. split.
  - clearbody url. destruct Hurl as [-> | Hhttp]; [done|].
    unfold getFullImageUrl. destruct url as [|a u]; [done|].
    cbn [truthy]. by rewrite Hhttp.
  - intros Hnone. subst url. unfold getFullImageUrl. by rewrite Hnone.
Qed.

Lemma getFullImageUrl_idempotent_witness :
  startsWith (default "http://localhost:8000" (truthy None)) "http" = true
  ∧ getFullImageUrl None (Some "/static/logo.png")
    = "http://localhost:8000/static/logo.png"
  ∧ getFullImageUrl None (Some (getFullImageUrl None (Some "/static/logo.png")))
    = getFullImageUrl None (Some "/static/logo.png").
Proof.
  assert (startsWith (default "http://localhost:8000" (truthy None)) "http" = true)
    as Hbase by reflexivity.
  split; [exact Hbase|]. split; [reflexivity|].
  exact (proj1 (proj2 (getFullImageUrl_idempotent None (Some "/static/logo.png") Hbase))).
Defined.

(** ** The API service: every request *)

Section RequestProperties.

Variable VITE_API_URL : option string.
Variable network : list Event → Config → Reply.

Local Abbreviation refresh := (refresh_request VITE_API_URL).
Local Abbreviation send := (request VITE_API_URL network).

Lemma request_interceptor_resent (w : World) (config : Config) (token : string) :
  localStorage w !! "access_token" = Some token →
  request_interceptor w (set_header "Authorization" ("Bearer " ++ token) config)
  = set_header "Authorization" ("Bearer " ++ token) config.
Proof.
  intros Htoken. unfold request_interceptor. rewrite Htoken.
  destruct token as [|a s]; [done|]. cbn [truthy].
  unfold set_header. cbn [headers url method data _retry].
  by rewrite insert_insert_eq.
Qed.

(** Every path of a request. *)
Lemma request_cases (w : World) (config : Config) :
  let sent := request_interceptor w config in
  let w1 := log (ApiSent sent) w in
  send w config
  = match settle sent (network (history w) sent) with
    | inr response => (w1, Fulfilled response)
    | inl error =>
        if status_is error 401 && negb (_retry config) then
          match truthy (localStorage w !! "refresh_token") with
          | None =>
              (navigate "/login" (clear w1),
               Rejected (with_config (set_retry true sent) error))
          | Some refreshToken =>
              let posted := refresh refreshToken in
              let w2 := log (RefreshPosted posted) w1 in
              match settle posted (network (history w1) posted) with
              | inl refreshError =>
                  let w3 := removeItem "refresh_token" (removeItem "access_token" w2) in
                  (if negb (includes (pathname w) "/login")
                   then navigate "/login" w3 else w3,
                   Rejected refreshError)
              | inr response =>
                  let token :=
                    default "undefined" (response_data response !! "access_token") in
                  let w3 := setItem "access_token" token w2 in
                  let resent :=
                    set_header "Authorization" ("Bearer " ++ token) (set_retry true sent) in
                  (log (ApiSent resent) w3,
                   settled (settle resent (network (history w3) resent)))
              end
          end
        else (w1, Rejected error)
    end.
Proof.
  intros sent w1. unfold request. rewrite api_unfold. cbn zeta. fold sent. fold w1.
  destruct (settle sent _) as [error|response] eqn:Hsettle; [|done].
  pose proof (settle_error_config _ _ _ Hsettle) as Hconfig.
  unfold response_rejected. rewrite Hconfig.
  unfold sent at 1. rewrite request_interceptor_retry. fold sent.
  destruct (status_is error 401 && negb (_retry config)); [|done].
  change (localStorage w1) with (localStorage w).
  destruct (truthy (localStorage w !! "refresh_token")) as [refreshToken|]; [|done].
  destruct (settle (refresh refreshToken) _) as [refreshError|response]; [done|].
  rewrite api_retried by done.
  rewrite request_interceptor_resent; [done|].
  cbn [setItem localStorage]. apply lookup_insert_eq.
Qed.


(** X11: the request interceptor changes nothing but the Authorization
    header. With no access token in storage (or an empty one) the request
    is sent as it is; with one, the header is Bearer followed by the token,
    whatever the caller had put there; applying the interceptor twice is the
    same as applying it once. *)
Theorem request_interceptor_attaches (w : World) (config : Config) :
  let sent := request_interceptor w config in
  url sent = url config ∧ method sent = method config
  ∧ data sent = data config ∧ _retry sent = _retry config
  ∧ (∀ name, name ≠ "Authorization" → headers sent !! name = headers config !! name)
  ∧ headers sent !! "Authorization"
    = match truthy (localStorage w !! "access_token") with
      | Some token => Some ("Bearer " ++ token)
      | None => headers config !! "Authorization"
      end
  ∧ request_interceptor w sent = sent.
Proof.
  cbn zeta. unfold request_interceptor.
  destruct (truthy (localStorage w !! "access_token")) as [token|] eqn:Htoken.
  - cbn [set_header url method data _retry headers].
    repeat split.
    + intros name Hname. by rewrite lookup_insert_ne.
    + apply lookup_insert_eq.
    + unfold set_header. cbn [headers url method data _retry].
      by rewrite insert_insert_eq.
  - repeat split.
Qed.

(** X12: a request that gets no response (a network error) is sent once;
    the error reaches the caller as it is, and nothing is refreshed, stored
    or navigated, whether the request carries the flag or not. *)
Theorem network_error_passed_through (fuel : nat) (w : World) (config : Config)
    (message : string) :
  let sent := request_interceptor w config in
  network (history w) sent = NoAnswer message →
  api VITE_API_URL network (S fuel) w config
  = ({| localStorage := localStorage w; pathname := pathname w;
        history := history w ++ [ApiSent sent] |},
     Rejected {| error_config := sent; error_response := None; message := message |}).
Proof.
  intros sent Hreply. rewrite api_unfold. cbn zeta. fold sent. rewrite Hreply.
  cbn [settle]. by apply response_rejected_other.
Qed.

Ltac bounded :=
  cbn [fst snd log navigate clear setItem removeItem history settled];
  rewrite <- ?app_assoc;
  split; [reflexivity | cbn; repeat split; (lia || done)].

(** X13: whatever the backend answers, one call of the client sends the
    request once or twice, posts to the refresh endpoint at most once (and
    exactly once when the request is sent twice), navigates at most once,
    and settles. *)
Theorem request_bounded (w : World) (config : Config) :
  ∃ events : list Event,
    history (send w config).1 = (history w ++ events)%list
    ∧ (1 ≤ count is_sent events ≤ 2)%nat
    ∧ (count is_refresh events ≤ 1)%nat
    ∧ (count is_navigation events ≤ 1)%nat
    ∧ (count is_sent events = 2%nat → count is_refresh events = 1%nat)
    ∧ (send w config).2 ≠ Unfinished.
Proof.
  rewrite request_cases. cbn zeta.
  destruct (settle _ _) as [error|response]; [|eexists [_]; bounded].
  destruct (status_is error 401 && negb (_retry config)); [|eexists [_]; bounded].
  destruct (truthy (localStorage w !! "refresh_token")) as [refreshToken|];
    [|eexists [_; _]; bounded].
  destruct (settle (refresh refreshToken) _) as [refreshError|response].
  - destruct (includes (pathname w) "/login"); cbn [negb];
      [eexists [_; _] | eexists [_; _; _]]; bounded.
  - eexists [_; _; _]. destruct (settle _ _); bounded.
Qed.

(** X14: whatever the backend answers, a request writes no storage key
    but access_token: every other key keeps its value or is removed; the
    location stays or becomes /login; and when the request is fulfilled the
    location and every key but access_token are as before. *)
Theorem request_storage (w : World) (config : Config) :
  let after := (send w config).1 in
  (∀ key, key ≠ "access_token" →
          localStorage after !! key = localStorage w !! key
          ∨ localStorage after !! key = None)
  ∧ (pathname after = pathname w ∨ pathname after = "/login")
  ∧ (∀ response, (send w config).2 = Fulfilled response →
       pathname after = pathname w
       ∧ ∀ key, key ≠ "access_token" →
                localStorage after !! key = localStorage w !! key).
Proof.
  rewrite request_cases. cbn zeta.
  destruct (settle _ _) as [error|response].
  2:{ cbn. repeat split; auto. }
  destruct (status_is error 401 && negb (_retry config)).
  2:{ cbn. repeat split; auto. }
  destruct (truthy (localStorage w !! "refresh_token")) as [refreshToken|].
  2:{ cbn. repeat split; auto; done. }
  destruct (settle (refresh refreshToken) _) as [refreshError|response].
  - assert (∀ key, delete "refresh_token" (delete "access_token" (localStorage w)) !! key
                   = localStorage w !! key
                   ∨ delete "refresh_token" (delete "access_token" (localStorage w)) !! key
                     = None) as Hdel.
    { intros key. destruct (decide (key = "refresh_token")) as [->|];
        [right; apply lookup_delete_eq|].
      rewrite lookup_delete_ne by done.
      destruct (decide (key = "access_token")) as [->|];
        [right; apply lookup_delete_eq|].
      left. by rewrite lookup_delete_ne. }
    destruct (includes (pathname w) "/login"); cbn; repeat split; auto; done.
  - cbn [fst snd log setItem localStorage pathname]. repeat split; auto.
    + intros key Hkey. left. by rewrite lookup_insert_ne.
    + intros key Hkey. by rewrite lookup_insert_ne.
Qed.


(** X15: after a request that was recovered by a refresh, the next request
    carries the new token from the start, and when the backend accepts it,
    it is fulfilled by that single send, with no further refresh. *)
Theorem refreshed_token_used_next (w : World) (first second : Config)
    (body : Json) (refreshToken : string) (status' : Z) (body' : Json)
    (access_token : string) (status2 : Z) (body2 : Json) :
  _retry first = false →
  let sent := request_interceptor w first in
  network (history w) sent = Answered 401 body →
  truthy (localStorage w !! "refresh_token") = Some refreshToken →
  network (history w ++ [ApiSent sent]) (refresh refreshToken)
  = Answered status' body' →
  validateStatus status' = true →
  body' !! "access_token" = Some access_token →
  access_token ≠ "" →
  let after := (send w first).1 in
  let sent2 := set_header "Authorization" ("Bearer " ++ access_token) second in
  network (history after) sent2 = Answered status2 body2 →
  validateStatus status2 = true →
  send after second
  = ({| localStorage := localStorage after; pathname := pathname after;
        history := history after ++ [ApiSent sent2] |},
     Fulfilled {| status := status2; response_data := body2;
                  response_config := sent2 |}).
Proof.
  intros Hretry sent Hreply Htoken Hrefresh Hvalid Hbody Hne after sent2 Hreply2 Hvalid2.
  assert (localStorage after !! "access_token" = Some access_token) as Hstored.
  { subst after. rewrite request_cases. cbn zeta. fold sent. rewrite Hreply.
    cbn [settle validateStatus Z.leb Z.ltb Z.compare Pos.compare Pos.compare_cont andb].
    unfold status_is. cbn [error_response status_error status Z.eqb Pos.eqb].
    rewrite Hretry, Htoken. cbn [andb negb log history]. rewrite Hrefresh.
    cbn [settle]. rewrite Hvalid. cbn [fst response_data log setItem localStorage].
    rewrite Hbody. apply lookup_insert_eq. }
  assert (request_interceptor after second = sent2) as Hsent2.
  { unfold request_interceptor. rewrite Hstored.
    destruct access_token; [done|]. reflexivity. }
  rewrite request_cases. cbn zeta. rewrite Hsent2, Hreply2.
  cbn [settle]. by rewrite Hvalid2.
Qed.

End RequestProperties.

(** Scenario: the backend cannot be reached. *)
Lemma network_error_passed_through_witness :
  offline_network [] (bearer "a1" get_documents) = NoAnswer "Network Error"
  ∧ api None offline_network 1 world_expired get_documents
    = ({| localStorage := localStorage world_expired; pathname := "/documents";
          history := [ApiSent (bearer "a1" get_documents)] |},
       Rejected {| error_config := bearer "a1" get_documents;
                   error_response := None; message := "Network Error" |}).
Proof.
  split; [reflexivity|].
  rewrite (network_error_passed_through None offline_network 0 world_expired
             get_documents "Network Error" eq_refl).
  vm_compute. reflexivity.
Defined.

(** Scenario D: a second request after the refresh. *)
Lemma refreshed_token_used_next_witness :
  let sent := bearer "a1" get_documents in
  let posted := refresh_request None "r1" in
  let after := (request None demo_network world_expired get_documents).1 in
  _retry get_documents = false
  ∧ demo_network [] sent = Answered 401 ∅
  ∧ truthy (localStorage world_expired !! "refresh_token") = Some "r1"
  ∧ demo_network [ApiSent sent] posted = Answered 200 {[ "access_token" := "a2" ]}
  ∧ "a2" ≠ ""
  ∧ demo_network (history after) (bearer "a2" get_documents) = Answered 200 ∅
  ∧ (request None demo_network after get_documents).2
    = Fulfilled {| status := 200; response_data := ∅;
                   response_config := bearer "a2" get_documents |}
  ∧ count is_refresh (history (request None demo_network after get_documents).1)
    = 1%nat.
Proof.
  cbn zeta.
  assert (_retry get_documents = false) as H1 by reflexivity.
  assert (demo_network (history world_expired)
            (request_interceptor world_expired get_documents)
          = Answered 401 ∅) as H2 by (vm_compute; reflexivity).
  assert (truthy (localStorage world_expired !! "refresh_token") = Some "r1") as H3
    by (vm_compute; reflexivity).
  assert (demo_network
            (history world_expired
             ++ [ApiSent (request_interceptor world_expired get_documents)])
            (refresh_request None "r1")
          = Answered 200 {[ "access_token" := "a2" ]}) as H4
    by (vm_compute; reflexivity).
  assert (validateStatus 200 = true) as H5 by reflexivity.
  assert (({[ "access_token" := "a2" ]} : Json) !! "access_token" = Some "a2") as H6
    by (vm_compute; reflexivity).
  assert ("a2" ≠ "") as H7 by discriminate.
  assert (demo_network
            (history (request None demo_network world_expired get_documents).1)
            (set_header "Authorization" ("Bearer " ++ "a2") get_documents)
          = Answered 200 ∅) as H8 by (vm_compute; reflexivity).
  split; [exact H1|]. split; [vm_compute; reflexivity|].
  split; [exact H3|]. split; [vm_compute; reflexivity|].
  split; [exact H7|]. split; [vm_compute; reflexivity|].
  rewrite (refreshed_token_used_next None demo_network world_expired get_documents
             get_documents ∅ "r1" 200 {[ "access_token" := "a2" ]} "a2" 200 ∅
             H1 H2 H3 H4 H5 H6 H7 H8 H5).
  split; [reflexivity|]. vm_compute. reflexivity.
Defined.

(** ** The methods of the service and the authentication context *)

Section ServiceProperties.

Variable VITE_API_URL : option string.
Variable network : list Event → Config → Reply.
Variable detail : Json → option (list ValidationItem).
Variable response_user : Json → option Json.

Local Abbreviation send := (request VITE_API_URL network).

Lemma request_settles (w : World) (config : Config) :
  (send w config).2 ≠ Unfinished.
Proof. apply (api_fuel_enough VITE_API_URL network 0 w config). Qed.

Lemma request_422 (w : World) (config : Config) (body : Json) :
  let sent := request_interceptor w config in
  network (history w) sent = Answered 422 body →
  send w config = (log (ApiSent sent) w, Rejected (status_error sent 422 body)).
Proof.
  intros sent Hreply. rewrite request_cases. cbn zeta. fold sent. by rewrite Hreply.
Qed.



(** X16: login and register do not pass a 422 on as it is when the detail
    of the response is a list: they throw a new Error whose message joins
    the entries as <loc joined by dots>: <msg>, separated by semicolons (an
    empty list gives the empty message). Only when the detail is not a list
    does the caller get the axios error. *)
Theorem validation_error_replaced (w : World) (body : Json) :
  let thrown (sent : Config) : Thrown :=
    match detail body with
    | Some items =>
        ErrorThrown (join "; " (map (λ err, loc_text (loc err) ++ ": " ++ msg err) items))
    | None => AxiosThrown (status_error sent 422 body)
    end in
  (∀ email password,
     let sent := request_interceptor w (Service.login_request email password) in
     network (history w) sent = Answered 422 body →
     Service.login VITE_API_URL network detail email password w
     = (log (ApiSent sent) w, Threw (thrown sent)))
  ∧ (∀ email username password fullName,
       let sent := request_interceptor w
                     (Service.register_request email username password fullName) in
       network (history w) sent = Answered 422 body →
       Service.register VITE_API_URL network detail email username password fullName w
       = (log (ApiSent sent) w, Threw (thrown sent))).
Proof.
  cbn zeta. split.
  - intros email password Hreply. unfold Service.login.
    rewrite (request_422 _ _ _ Hreply).
    unfold Service.rethrow, Service.handleValidationError, status_is.
    cbn [error_response status_error status response_data Z.eqb Pos.eqb].
    by destruct (detail body).
  - intros email username password fullName Hreply. unfold Service.register.
    rewrite (request_422 _ _ _ Hreply).
    unfold Service.rethrow, Service.handleValidationError, status_is.
    cbn [error_response status_error status response_data Z.eqb Pos.eqb].
    by destruct (detail body).
Qed.

(** X17: after logout neither token is in storage and the user is null,
    whatever the backend does with the logout call; with no refresh token in
    storage no request is made, and nothing else changes. *)
Theorem logout_clears (w : World) (st : AuthContext.State) :
  let result := AuthContext.logout VITE_API_URL network w st in
  localStorage result.1 !! "access_token" = None
  ∧ localStorage result.1 !! "refresh_token" = None
  ∧ AuthContext.user result.2 = None
  ∧ AuthContext.loading result.2 = AuthContext.loading st
  ∧ (truthy (localStorage w !! "refresh_token") = None →
     history result.1 = history w ∧ pathname result.1 = pathname w
     ∧ ∀ key, key ≠ "access_token" → key ≠ "refresh_token" →
              localStorage result.1 !! key = localStorage w !! key).
Proof.
  cbn zeta. unfold AuthContext.logout.
  destruct (truthy (localStorage w !! "refresh_token")) as [refreshToken|].
  - unfold Service.logout.
    pose proof (request_settles w
                  (Service.call "post" "/auth/logout" {[ "refresh_token" := refreshToken ]}))
      as Hsettles.
    destruct (send w _) as [w1 [response|error|]]; [| |done];
      cbn [fst snd removeItem localStorage AuthContext.setUser AuthContext.user
           AuthContext.loading];
      (repeat split; try done;
       [by rewrite lookup_delete_ne, lookup_delete_eq | apply lookup_delete_eq]).
  - cbn [fst snd removeItem localStorage pathname history AuthContext.setUser
         AuthContext.user AuthContext.loading].
    repeat split; try done;
      [by rewrite lookup_delete_ne, lookup_delete_eq | apply lookup_delete_eq |].
    intros key Ha Hr. by rewrite !lookup_delete_ne.
Qed.

(** X18: checkAuth always ends with loading false. With no access token it
    makes no request and changes nothing else; with one, a fulfilled
    /auth/me sets the user to its payload, and a rejected one leaves the
    user as it was and removes both tokens. *)
Theorem checkAuth_outcome (w : World) (st : AuthContext.State) :
  let result := AuthContext.checkAuth VITE_API_URL network w st in
  let me := send w (Service.call "get" "/auth/me" ∅) in
  AuthContext.loading result.2 = false
  ∧ match truthy (localStorage w !! "access_token"), me.2 with
    | None, _ => result.1 = w ∧ AuthContext.user result.2 = AuthContext.user st
    | Some _, Fulfilled response =>
        result.1 = me.1
        ∧ AuthContext.user result.2 = Some (response_data response)
    | Some _, _ =>
        history result.1 = history me.1
        ∧ localStorage result.1 !! "access_token" = None
        ∧ localStorage result.1 !! "refresh_token" = None
        ∧ AuthContext.user result.2 = AuthContext.user st
    end.
Proof.
  cbn zeta. unfold AuthContext.checkAuth.
  destruct (truthy (localStorage w !! "access_token")) as [token|]; [|done].
  unfold Service.getCurrentUser.
  pose proof (request_settles w (Service.call "get" "/auth/me" ∅)) as Hsettles.
  destruct (send w _) as [w1 [response|error|]]; [done| |done].
  cbn [fst snd removeItem localStorage history AuthContext.setLoading
       AuthContext.user AuthContext.loading].
  repeat split; [by rewrite lookup_delete_ne, lookup_delete_eq | apply lookup_delete_eq].
Qed.

(** X19: after a login that the service resolves, the access token of the
    response is stored and the next request carries it; the refresh token
    is stored only when the response has one, so an older refresh token
    stays in storage otherwise; no other key changes, and the user is the
    one of the response. *)
Theorem login_stores_session (email password : string) (w w1 : World)
    (st : AuthContext.State) (response : Json) :
  Service.login VITE_API_URL network detail email password w = (w1, Resolved response) →
  let result := AuthContext.login VITE_API_URL network detail response_user
                  email password w st in
  let after := result.1.1 in
  result.2 = Resolved ()
  ∧ AuthContext.user result.1.2 = response_user response
  ∧ localStorage after !! "access_token"
    = Some (default "undefined" (response !! "access_token"))
  ∧ localStorage after !! "refresh_token"
    = match truthy (response !! "refresh_token") with
      | Some refresh_token => Some refresh_token
      | None => localStorage w1 !! "refresh_token"
      end
  ∧ (∀ key, key ≠ "access_token" → key ≠ "refresh_token" →
            localStorage after !! key = localStorage w1 !! key)
  ∧ (∀ token config, response !! "access_token" = Some token → token ≠ "" →
       headers (request_interceptor after config) !! "Authorization"
       = Some ("Bearer " ++ token)).
Proof.
  intros Hlogin. cbn zeta. unfold AuthContext.login. rewrite Hlogin.
  unfold AuthContext.store_session.
  destruct (truthy (response !! "refresh_token")) as [rt|] eqn:Hrt;
    cbn [fst snd setItem localStorage AuthContext.setUser AuthContext.user].
  - repeat split.
    + by rewrite lookup_insert_ne, lookup_insert_eq.
    + apply lookup_insert_eq.
    + intros key Ha Hr. by rewrite !lookup_insert_ne.
    + intros token config Htoken Hne. unfold request_interceptor, setItem.
      cbn [localStorage]. rewrite lookup_insert_ne, lookup_insert_eq, Htoken by done.
      destruct token; [done|]. apply lookup_insert_eq.
  - repeat split.
    + apply lookup_insert_eq.
    + by rewrite lookup_insert_ne.
    + intros key Ha Hr. by rewrite !lookup_insert_ne.
    + intros token config Htoken Hne. unfold request_interceptor, setItem.
      cbn [localStorage]. rewrite lookup_insert_eq, Htoken.
      destruct token; [done|]. apply lookup_insert_eq.
Qed.

End ServiceProperties.

(** Scenario: a registration the backend finds invalid. *)
Lemma validation_error_replaced_witness :
  let sent := bearer "a1" (Service.register_request "a@b" "ann" "pw" None) in
  validating_network [] sent = Answered 422 {[ "detail" := "[2 items]" ]}
  ∧ Service.register None validating_network demo_detail "a@b" "ann" "pw" None
      world_access_only
    = ({| localStorage := localStorage world_access_only; pathname := "/documents";
          history := [ApiSent sent] |},
       Threw (ErrorThrown
                "body.email: value is not a valid email; undefined: field required")).
Proof.
  cbn zeta. split; [reflexivity|].
  rewrite (proj2 (validation_error_replaced None validating_network demo_detail
                    world_access_only {[ "detail" := "[2 items]" ]})
             "a@b" "ann" "pw" None eq_refl).
  vm_compute. reflexivity.
Defined.

(** Scenario: a login whose response has no refresh token, over a session
    with an old one. *)
Lemma login_stores_session_witness :
  let response : Json := {[ "access_token" := "a9"; "role" := "admin" ]} in
  let result := AuthContext.login None welcoming_network demo_detail demo_user
                  "a@b" "pw" world_stale signed_out in
  (Service.login None welcoming_network demo_detail "a@b" "pw" world_stale).2
  = Resolved response
  ∧ result.2 = Resolved ()
  ∧ localStorage result.1.1 !! "access_token" = Some "a9"
  ∧ localStorage result.1.1 !! "refresh_token" = Some "r0"
  ∧ AuthContext.isAdmin result.1.2 = true.
Proof.
  cbn zeta.
  destruct (Service.login None welcoming_network demo_detail "a@b" "pw" world_stale)
    as [w1 p] eqn:Hlogin.
  assert (p = Resolved ({[ "access_token" := "a9"; "role" := "admin" ]} : Json)) as ->.
  { change p with (w1, p).2. rewrite <- Hlogin. vm_compute. reflexivity. }
  assert (localStorage w1 !! "refresh_token" = Some "r0") as Hold.
  { change w1 with (w1, Resolved ({[ "access_token" := "a9"; "role" := "admin" ]} : Json)).1.
    rewrite <- Hlogin. vm_compute. reflexivity. }
  destruct (login_stores_session None welcoming_network demo_detail demo_user
              "a@b" "pw" world_stale w1 signed_out _ Hlogin)
    as (Hp & Huser & Hacc & Href & _).
  split; [reflexivity|]. split; [exact Hp|].
  split; [rewrite Hacc; vm_compute; reflexivity|].
  split; [rewrite Href, <- Hold; vm_compute; reflexivity|].
  unfold AuthContext.isAdmin. rewrite Huser. vm_compute. reflexivity.
Defined.



(** ** loadCustomization and the backend *)

(** X20: whatever the backend answers to the fetch of the customization,
    load settles without throwing and with loading false. When the request
    is fulfilled and the record of the body has its colors and its
    branding, that record is stored and applied. When the request is
    fulfilled and the record lacks one of them, applyTheme throws on it, and
    the built-in default is stored and applied over what applyTheme had
    written until then. When the request is rejected, the built-in default
    is stored and applied. What happened to storage and location is what
    the request did (so the session recovery of a 401 has taken place
    although the error is absorbed). *)
Theorem load_absorbs_failure (engine : StyleEngine) (env : option string)
    (network : list Event → Config → Reply) (now : string)
    (as_customization : Json → Customization) (w : World) (s : Provider) :
  let fetch := request env network w (Service.call "get" "/customization/current" ∅) in
  let theme := applyTheme engine env Thrown TypeErrorThrown in
  let stored_and_applied : Customization * Document :=
    match fetch.2 with
    | Fulfilled response =>
        let data := as_customization (response_data response) in
        match colors data, branding data with
        | Some _, Some _ => (data, (theme data (document s)).2)
        | _, _ =>
            (DEFAULT_CUSTOMIZATION now,
             (theme (DEFAULT_CUSTOMIZATION now) (theme data (document s)).2).2)
        end
    | _ => (DEFAULT_CUSTOMIZATION now, (theme (DEFAULT_CUSTOMIZATION now) (document s)).2)
    end in
  load engine env network now as_customization w s
  = (fetch.1,
     Some (Normal (),
           {| customization := Some stored_and_applied.1; loading := false;
              document := stored_and_applied.2 |})).
Proof.
  cbn zeta. unfold load, getCurrentCustomization.
  pose proof (proj2 (api_fuel_enough env network 0 w
                       (Service.call "get" "/customization/current" ∅))) as Hsettles.
  change (api env network 2) with (request env network) in Hsettles.
  destruct (request env network w _) as [w1 [response|error|]]; [| |done].
  - cbn [fst snd]. do 2 f_equal.
    set (data := as_customization (response_data response)).
    unfold loadCustomization, try_catch_finally, applyThemeM, setCustomization,
      setLoading, await, mbind, M_bind.
    cbn [customization loading document].
    pose proof (applyTheme_completion engine Thrown TypeErrorThrown env data (document s))
      as Hdata.
    destruct (applyTheme engine env Thrown TypeErrorThrown data (document s))
      as [completion doc].
    cbn [fst snd customization loading document] in *. subst completion.
    pose proof (applyTheme_completion engine Thrown TypeErrorThrown env
                  (DEFAULT_CUSTOMIZATION now) doc) as Hdefault.
    cbn [colors branding DEFAULT_CUSTOMIZATION] in Hdefault.
    destruct (applyTheme engine env Thrown TypeErrorThrown (DEFAULT_CUSTOMIZATION now) doc)
      as [completion' doc'].
    cbn [fst snd] in *. subst completion'.
    by destruct (colors data), (branding data).
  - cbn [fst snd]. by rewrite loadCustomization_throw.
Qed.

(** The theorem at a backend whose answer has the colours of a brand and
    nothing else: applyTheme writes the colours and the ramps, throws at
    the missing branding, and the default record is applied over that. *)
Lemma load_absorbs_failure_witness :
  let result := load keeping_engine None welcoming_network ""
                  (λ _, customization_colors_only) world_access_only initial_provider in
  ∃ s', result.2 = Some (Normal (), s')
        ∧ customization s' = Some (DEFAULT_CUSTOMIZATION "")
        ∧ loading s' = false
        ∧ root_style (document s') !! "--color-primary" = Some "#0ea5e9"
        ∧ root_style (document s') !! "--spacing-unit" = Some "16px".
Proof.
  cbn zeta. rewrite load_absorbs_failure. eexists. split; [reflexivity|].
  cbn [customization loading document].
  repeat split; vm_compute; reflexivity.
Defined.
